(** * Multi-agent coordination and policy engine

    A shallow embedding of
      backend/app/viewmodels/ml/policy_engine.py
      backend/app/viewmodels/ml/multi_agent_orchestrator.py
    Python dicts with a fixed set of keys are records whose fields are
    options ([None] = key absent, so that every [dict.get(key, default)] of
    the source is written out with its own default).  Energy quantities and
    the AQI are Python ints (Z).  Temperature and sensor connectivity are
    floats: they are read as rationals (Q) and decimal literals as the
    decimals they spell, so rounding is not modelled; comparing a float
    with an int literal (the heat thresholds) is exact in Python, and for
    an int load the quotient [load / 6000] only meets 0.8 or 0.9 at the
    loads 4800 or 5400, where the rounded quotient is the rounded literal.
    The clock and the context collaborators are inputs ([World]); an
    exception raised by an agent is a result ([Exn + _]). *)

From Stdlib Require Import ZArith QArith String List Bool Lia.
From stdpp Require Import base list strings pretty.

Local Open Scope string_scope.
Local Open Scope list_scope.
Local Open Scope Z_scope.

(** ** Data model *)

(** An action dict: the keys the two modules read or write, and the
    remaining keys carried along untouched by every [{**action, ...}]. *)
Record Action := mkAction {
  action_name : option string;        (* key "action" *)
  priority : option string;           (* key "priority" *)
  zones : option string;              (* key "zones" *)
  energy_impact_mw : option Z;        (* key "energy_impact_mw" *)
  reason : option string;             (* key "reason" *)
  scope_reduced : option bool;        (* key "scope_reduced" *)
  extras : list (string * string)     (* any other key *)
}.

(** The parts of the collaborators' dicts the agents read:
    [forecast.get("statistics", {}).get("maximum")],
    [forecast.get("risk_assessment", {}).get("overall_risk")] and
    [anomalies.get("anomaly_count")]; [None] when a key on the path is
    absent. *)
Record TempForecast := { statistics_maximum : option Q }.
Record FloodForecast := { risk_assessment_overall_risk : option string }.
Record Anomalies := { anomaly_count : option Z }.

(** The context dict. *)
Record Context := mkContext {
  temperature : option Q;
  flood_risk : option string;
  aqi : option Z;
  energy_load : option Z;
  temp_forecast : option TempForecast;
  flood_forecast : option FloodForecast;
  temp_anomalies : option Anomalies;
  rainfall_anomalies : option Anomalies;
  system_health : option string;
  sensor_connectivity : option Q;
  pending_actions : option (list Action)
}.

(** ** Small Python primitives *)

(** [needle in hay] on strings. *)
Fixpoint str_in (needle hay : string) : bool :=
  String.prefix needle hay ||
  match hay with
  | EmptyString => false
  | String _ rest => str_in needle rest
  end.

(** [x == "lit"] where [x] is the result of [dict.get(key)]. *)
Definition get_eq (x : option string) (lit : string) : bool :=
  match x with
  | Some s => String.eqb s lit
  | None => false
  end.

Definition Qltb (x y : Q) : bool := negb (Qle_bool y x).

(** [load / 6000] as Python's true division. *)
Definition utilization_of (load : Z) : Q := (inject_Z load / inject_Z 6000)%Q.

(** [dict.get(k, d)] on a literal dict of ranks. *)
Fixpoint dict_get (d : list (string * Z)) (k : string) (dflt : Z) : Z :=
  match d with
  | [] => dflt
  | (k', v) :: d' => if String.eqb k' k then v else dict_get d' k dflt
  end.

Definition priority_order : list (string * Z) :=
  [("CRITICAL", 0); ("HIGH", 1); ("MEDIUM", 2); ("LOW", 3)].

(** [priority_order.get(x.get("priority", "LOW"), 3)] *)
Definition priority_key (x : Action) : Z :=
  dict_get priority_order (default "LOW" (priority x)) 3.

(** [a.get("energy_impact_mw", 0)] *)
Definition impact (a : Action) : Z := default 0 (energy_impact_mw a).

(** [sum(a.get("energy_impact_mw", 0) for a in actions)] *)
Definition total_impact (actions : list Action) : Z :=
  fold_right (fun a s => impact a + s) 0 actions.

(** [sorted(l, key=...)]: Python's sort is stable; insertion sort placing
    an element before the later elements of equal key is the same order. *)
Section Sorted.
Context {A : Type} (key : A -> Z).

Fixpoint insert_by (x : A) (l : list A) : list A :=
  match l with
  | [] => [x]
  | y :: l' => if key x <=? key y then x :: y :: l' else y :: insert_by x l'
  end.

Fixpoint sorted (l : list A) : list A :=
  match l with
  | [] => []
  | x :: l' => insert_by x (sorted l')
  end.
(** Every element is followed only by elements of greater or equal key. *)
Definition ascending (l : list A) : Prop :=
  forall pre x post y, l = pre ++ x :: post -> y ∈ post -> key x <= key y.

End Sorted.

(** ** Policies (policy_engine.py) *)

Inductive Effect := BLOCK | DEFER | MODIFY | ALLOW.

Record Policy := mkPolicy {
  policy_id : string;
  policy_rule : string;
  condition : Context -> Action -> bool;
  effect : Effect;                              (* key "action" *)
  modification : option (Action -> Action);
  policy_reason : option string
}.

Record SafetyCheck := mkSafetyCheck {
  check_id : string;
  check : Context -> bool;
  message : string
}.

Definition energy_threshold : Policy :=
  {| policy_id := "energy_threshold";
     policy_rule := "Don't raise coastal shields while energy load is below 80% capacity";
     condition := fun context action =>
       get_eq (action_name action) "RAISE_COASTAL_BARRIERS" &&
       Qltb (utilization_of (default 0 (energy_load context))) (8 # 10);
     effect := BLOCK;
     modification := None;
     policy_reason := Some "Energy capacity sufficient, barriers not needed" |}.

Definition cooling_during_peak : Policy :=
  {| policy_id := "cooling_during_peak";
     policy_rule := "Don't trigger cooling nodes during peak energy load (>90%)";
     condition := fun context action =>
       str_in "COOLING" (default "" (action_name action)) &&
       Qltb (9 # 10) (utilization_of (default 0 (energy_load context)));
     effect := DEFER;
     modification := None;
     policy_reason := Some "Peak energy load - defer cooling to avoid grid overload" |}.

Definition conflicting_barriers : Policy :=
  {| policy_id := "conflicting_barriers";
     policy_rule := "Don't raise and lower barriers simultaneously";
     condition := fun context action =>
       get_eq (action_name action) "LOWER_COASTAL_BARRIERS" &&
       existsb (fun a => get_eq (action_name a) "RAISE_COASTAL_BARRIERS")
               (default [] (pending_actions context));
     effect := BLOCK;
     modification := None;
     policy_reason := Some "Conflicting barrier actions detected" |}.

Definition emergency_override : Policy :=
  {| policy_id := "emergency_override";
     policy_rule := "Allow critical actions even during high energy load if risk is critical";
     condition := fun context action =>
       get_eq (priority action) "CRITICAL" &&
       Qltb (9 # 10) (utilization_of (default 0 (energy_load context)));
     effect := ALLOW;
     modification := None;
     policy_reason := Some "Critical risk overrides energy constraints" |}.

(** The [modification] lambda of aqi_cooling_conflict:
    [{**action, "action": ..., "reason": action.get("reason", "") + ...}] *)
Definition air_filter_modification (action : Action) : Action :=
  {| action_name := Some "ACTIVATE_COOLING_WITH_AIR_FILTER";
     priority := priority action;
     zones := zones action;
     energy_impact_mw := energy_impact_mw action;
     reason := Some (default "" (reason action) +:+ " (with air filtration)");
     scope_reduced := scope_reduced action;
     extras := extras action |}.

Definition aqi_cooling_conflict : Policy :=
  {| policy_id := "aqi_cooling_conflict";
     policy_rule := "Don't activate cooling if AQI is critical (cooling may worsen air quality)";
     condition := fun context action =>
       str_in "COOLING" (default "" (action_name action)) &&
       (200 <? default 0 (aqi context));
     effect := MODIFY;
     modification := Some air_filter_modification;
     policy_reason := Some "Cooling activated with air filtration due to high AQI" |}.

Definition _initialize_policies : list Policy :=
  [energy_threshold; cooling_during_peak; conflicting_barriers;
   emergency_override; aqi_cooling_conflict].

Definition _initialize_safety_checks : list SafetyCheck :=
  [ {| check_id := "energy_capacity";
       check := fun context => default 0 (energy_load context) <? 6000;
       message := "Energy capacity check passed" |};
    {| check_id := "system_health";
       check := fun context =>
         String.eqb (default "operational" (system_health context)) "operational";
       message := "System health check passed" |};
    {| check_id := "sensor_connectivity";
       check := fun context =>
         Qltb (8 # 10) (default (95 # 100)%Q (sensor_connectivity context));
       message := "Sensor connectivity check passed" |} ].

(** ** validate_action *)

Record Violation := mkViolation {
  v_policy_id : string; v_rule : string; v_reason : string }.

Record Modification := mkModification {
  m_policy_id : string; m_modification : string }.

Record SafetyResult := mkSafetyResult {
  r_check_id : string; passed : bool; r_message : string }.

(** The two shapes of dict [validate_action] returns: the early return of
    a DEFER policy, and the full report. *)
Inductive Validation :=
| Deferred (defer_reason : string)
| Report (valid : bool) (violations : list Violation)
         (modifications : list Modification)
         (safety_checks : list SafetyResult) (action : Action).

(** [validation["valid"]] *)
Definition is_valid (v : Validation) : bool :=
  match v with
  | Deferred _ => false
  | Report valid _ _ _ _ => valid
  end.

(** [validation.get("safety_checks")] *)
Definition get_safety_checks (v : Validation) : option (list SafetyResult) :=
  match v with
  | Deferred _ => None
  | Report _ _ _ s _ => Some s
  end.

(** The policy loop: [inl reason] is the early return of a DEFER match. *)
Fixpoint policy_loop (context : Context) (policies : list Policy)
    (action : Action) (violations : list Violation)
    (modifications : list Modification)
  : string + (Action * list Violation * list Modification) :=
  match policies with
  | [] => inr (action, violations, modifications)
  | policy :: rest =>
    if condition policy context action then
      match effect policy with
      | BLOCK =>
        policy_loop context rest action
          (violations ++
             [mkViolation (policy_id policy) (policy_rule policy)
                          (default "Policy violation" (policy_reason policy))])
          modifications
      | DEFER =>
        inl (default "Action deferred by policy" (policy_reason policy))
      | MODIFY =>
        match modification policy with
        | Some f =>
          policy_loop context rest (f action) violations
            (modifications ++
               [mkModification (policy_id policy)
                  (default "Action modified by policy" (policy_reason policy))])
        | None => policy_loop context rest action violations modifications
        end
      | ALLOW =>                      (* no branch of the if/elif chain *)
        policy_loop context rest action violations modifications
      end
    else policy_loop context rest action violations modifications
  end.

Definition run_safety_check (context : Context) (c : SafetyCheck) : SafetyResult :=
  if negb (check c context)
  then mkSafetyResult (check_id c) false ("Safety check failed: " +:+ check_id c)
  else mkSafetyResult (check_id c) true (message c).

Record PolicyEngine := mkPolicyEngine {
  policies : list Policy;
  safety_checks : list SafetyCheck
}.

Definition validate_action (self : PolicyEngine) (action : Action)
    (context : Context) : Validation :=
  match policy_loop context (policies self) action [] [] with
  | inl r => Deferred r
  | inr (action', violations, modifications) =>
    let safety_results := map (run_safety_check context) (safety_checks self) in
    let all_safe := forallb passed safety_results in
    Report (Nat.eqb (length violations) 0 && all_safe)
           violations modifications safety_results action'
  end.

Definition get_policy_engine : PolicyEngine :=
  {| policies := _initialize_policies;
     safety_checks := _initialize_safety_checks |}.

(** ** Conflict resolver stages *)

(** [{**action, "energy_impact_mw": v, "scope_reduced": True}] *)
Definition reduce_scope (action : Action) (v : Z) : Action :=
  {| action_name := action_name action;
     priority := priority action;
     zones := zones action;
     energy_impact_mw := Some v;
     reason := reason action;
     scope_reduced := Some true;
     extras := extras action |}.

(** The [for action in sorted_actions] loop of [_resolve_energy_conflict];
    the result is the list [resolved]. *)
Fixpoint energy_loop (available : Z) (sorted_actions : list Action)
    (cumulative_impact : Z) : list Action :=
  match sorted_actions with
  | [] => []
  | action :: rest =>
    if cumulative_impact + impact action <=? available then
      action :: energy_loop available rest (cumulative_impact + impact action)
    else if get_eq (priority action) "CRITICAL" then
      [reduce_scope action (available - cumulative_impact)]     (* break *)
    else energy_loop available rest cumulative_impact
  end.

Definition available_capacity (context : Context) : Z :=
  let current_load := default 4500 (energy_load context) in
  let max_capacity := 6000 in
  max_capacity - current_load.

Definition _resolve_energy_conflict (actions : list Action) (context : Context)
  : list Action :=
  let available := available_capacity context in
  if total_impact actions <=? available then actions
  else energy_loop available (sorted priority_key actions) 0.

(** [action.get("zones", "unknown")] *)
Definition zone_key (a : Action) : string := default "unknown" (zones a).

(** [zone_actions[zones].append(action)] on an insertion-ordered dict. *)
Fixpoint zone_append (z : string) (a : Action)
    (zone_actions : list (string * list Action)) : list (string * list Action) :=
  match zone_actions with
  | [] => [(z, [a])]
  | (k, l) :: rest =>
    if String.eqb k z then (k, l ++ [a]) :: rest
    else (k, l) :: zone_append z a rest
  end.

Definition group_by_zone (actions : list Action) : list (string * list Action) :=
  fold_left (fun zone_actions a => zone_append (zone_key a) a zone_actions)
            actions [].

(** What one group contributes to [resolved]. *)
Definition zone_choice (zone_actions_list : list Action) : list Action :=
  match zone_actions_list with
  | [a] => [a]
  | _ => match sorted priority_key zone_actions_list with
         | a :: _ => [a]
         | [] => []
         end
  end.

Definition _resolve_zone_conflict (actions : list Action) (context : Context)
  : list Action :=
  flat_map (fun g => zone_choice (snd g)) (group_by_zone actions).

(** The registered mutually exclusive pairs. *)
Definition conflicts : list (string * string) :=
  [("RAISE_COASTAL_BARRIERS", "LOWER_COASTAL_BARRIERS");
   ("ACTIVATE_COOLING", "DEACTIVATE_COOLING")].

(** [x in conflict_pair] for the result [x] of a [dict.get]. *)
Definition in_pair (x : option string) (p : string * string) : bool :=
  get_eq x (fst p) || get_eq x (snd p).

(** [tuple(sorted([x, y]))] *)
Definition sorted_pair (x y : string) : string * string :=
  if String.leb x y then (x, y) else (y, x).

Definition pair_eqb (p q : string * string) : bool :=
  String.eqb (fst p) (fst q) && String.eqb (snd p) (snd q).

(** The [for conflict_pair in conflicts] loop for one action: [Some seen']
    when the action is appended inside the loop (and the loop left by
    [break]), [None] when the loop ends with [conflict_found] still false. *)
Fixpoint pair_loop (actions : list Action) (action : Action)
    (seen_conflicts : list (string * string))
    (pairs : list (string * string)) : option (list (string * string)) :=
  match pairs with
  | [] => None
  | conflict_pair :: rest =>
    let action_name_ := default "" (action_name action) in
    if in_pair (Some action_name_) conflict_pair then
      let other_action :=
        List.filter (fun a => in_pair (action_name a) conflict_pair &&
                         negb (get_eq (action_name a) action_name_)) actions in
      match other_action with
      | other :: _ =>
        let conflict_key := sorted_pair action_name_ (default "" (action_name other)) in
        if negb (existsb (pair_eqb conflict_key) seen_conflicts) then
          if priority_key action <=? priority_key other
          then Some (conflict_key :: seen_conflicts)
          else pair_loop actions action seen_conflicts rest
        else pair_loop actions action seen_conflicts rest
      | [] => pair_loop actions action seen_conflicts rest
      end
    else pair_loop actions action seen_conflicts rest
  end.

(** The outer loop; [todo] is the part of [actions] still to visit. *)
Fixpoint action_loop (pairs : list (string * string)) (actions todo : list Action)
    (seen_conflicts : list (string * string)) : list Action :=
  match todo with
  | [] => []
  | action :: rest =>
    match pair_loop actions action seen_conflicts pairs with
    | Some seen' =>                       (* appended inside the loop *)
      action :: action_loop pairs actions rest seen'
    | None =>                             (* [if not conflict_found] *)
      action :: action_loop pairs actions rest seen_conflicts
    end
  end.

Definition _resolve_action_conflict (actions : list Action) (context : Context)
  : list Action :=
  action_loop conflicts actions actions [].

(** [_initialize_conflict_rules]: the three stages in their order. *)
Definition _initialize_conflict_rules
  : list (string * (list Action -> Context -> list Action)) :=
  [("energy_conflict", _resolve_energy_conflict);
   ("zone_conflict", _resolve_zone_conflict);
   ("action_conflict", _resolve_action_conflict)].

(** ** resolve_conflicts *)

(** The validation loop: the actions appended to [validated_actions]. *)
Fixpoint validated_actions (self : PolicyEngine) (actions : list Action)
    (context : Context) : list Action :=
  match actions with
  | [] => []
  | action :: rest =>
    match validate_action self action context with
    | Report true _ _ _ action' => action' :: validated_actions self rest context
    | _ => validated_actions self rest context
    end
  end.

Definition resolve_conflicts (self : PolicyEngine) (actions : list Action)
    (context : Context) : list Action :=
  fold_left (fun resolved conflict_rule => snd conflict_rule resolved context)
            _initialize_conflict_rules
            (validated_actions self actions context).

(** ** Agents (multi_agent_orchestrator.py) *)

(** Exceptions an [analyze] method can raise. *)
Inductive Exn :=
| NotImplementedError
| RuntimeError (msg : string).

Inductive Detail :=
| DFloat (q : Q)
| DInt (z : Z)
| DStr (s : string).

(** The dict an agent's [analyze] returns: the keys the coordinator reads
    and the agent-specific ones. *)
Record Analysis := mkAnalysis {
  agent : string;
  risk_level : string;
  details : list (string * Detail);
  recommended_actions : option (list Action)
}.

Record Agent := mkAgent {
  agent_name : string;
  agent_priority : Z;                 (* lower number = higher priority *)
  agent_status : string;
  analyze : Context -> Exn + Analysis
}.

(** The base class: [analyze] raises. *)
Definition base_Agent (name : string) (priority : Z) : Agent :=
  {| agent_name := name;
     agent_priority := priority;
     agent_status := "active";
     analyze := fun _ => inl NotImplementedError |}.

(** Number formatting and rounding of Python floats are left abstract. *)
Record Numerics := mkNumerics {
  float_str : Q -> string;            (* f"{x}" of a float *)
  int_str : Z -> string;              (* f"{n}" of an int *)
  fixed1_str : Q -> string;           (* f"{x:.1f}" *)
  round1 : Q -> Q                     (* round(x, 1) *)
}.

Section Agents.
Variable num : Numerics.

(** The [risk_level] computed by [HeatAgent.analyze].  [forecast and ...]
    is false for a missing forecast; a forecast without
    statistics/maximum reads as maximum 0. *)
Definition HeatAgent_risk_level (context : Context) : string :=
  let temp := default (30 # 1)%Q (temperature context) in
  let forecast := temp_forecast context in
  let forecast_above (t : Q) :=
    match forecast with
    | Some f => Qltb t (default (0 # 1)%Q (statistics_maximum f))
    | None => false
    end in
  if Qltb (38 # 1) temp || forecast_above (38 # 1)%Q then "Critical"
  else if Qltb (35 # 1) temp || forecast_above (35 # 1)%Q then "High"
  else if Qltb (32 # 1) temp then "Medium"
  else "Low".

Definition HeatAgent_get_actions (risk_level : string) (temp : Q) : list Action :=
  if String.eqb risk_level "Critical" then
    [ {| action_name := Some "ACTIVATE_ALL_COOLING";
         priority := Some "CRITICAL";
         zones := Some "All hotspot zones";
         energy_impact_mw := Some 300;
         reason := Some ("Temperature " +:+ float_str num temp +:+
                         "°C exceeds critical threshold");
         scope_reduced := None; extras := [] |} ]
  else if String.eqb risk_level "High" then
    [ {| action_name := Some "ACTIVATE_PRIORITY_COOLING";
         priority := Some "HIGH";
         zones := Some "High-priority zones";
         energy_impact_mw := Some 150;
         reason := Some ("Temperature " +:+ float_str num temp +:+
                         "°C approaching critical");
         scope_reduced := None; extras := [] |} ]
  else [].

Definition anomalies_detected (a : option Anomalies) : Z :=
  match a with
  | Some x => default 0 (anomaly_count x)
  | None => 0
  end.

Definition HeatAgent_analyze (context : Context) : Analysis :=
  let temp := default (30 # 1)%Q (temperature context) in
  let risk_level := HeatAgent_risk_level context in
  {| agent := "Heat Agent";
     risk_level := risk_level;
     details := [("current_temp", DFloat temp);
                 ("anomalies_detected",
                  DInt (anomalies_detected (temp_anomalies context)))];
     recommended_actions := Some (HeatAgent_get_actions risk_level temp) |}.

Definition HeatAgent : Agent :=
  {| agent_name := "Heat Agent"; agent_priority := 1; agent_status := "active";
     analyze := fun context => inr (HeatAgent_analyze context) |}.

Definition FloodAgent_get_actions (risk_level : string) : list Action :=
  if String.eqb risk_level "High" then
    [ {| action_name := Some "RAISE_COASTAL_BARRIERS";
         priority := Some "CRITICAL";
         zones := Some "Coastal zones";
         energy_impact_mw := Some 200;
         reason := Some "High flood risk detected";
         scope_reduced := None; extras := [] |} ]
  else if String.eqb risk_level "Medium" then
    [ {| action_name := Some "PREPARE_BARRIERS";
         priority := Some "MEDIUM";
         zones := Some "Coastal zones";
         energy_impact_mw := Some 0;
         reason := Some "Medium flood risk - prepare for activation";
         scope_reduced := None; extras := [] |} ]
  else [].

Definition FloodAgent_analyze (context : Context) : Analysis :=
  let flood_risk := default "Low" (flood_risk context) in
  let overall :=
    match flood_forecast context with
    | Some f => risk_assessment_overall_risk f
    | None => None
    end in
  let risk_level := if get_eq overall "High" then "High" else flood_risk in
  {| agent := "Flood Agent";
     risk_level := risk_level;
     details := [("current_risk", DStr flood_risk);
                 ("anomalies_detected",
                  DInt (anomalies_detected (rainfall_anomalies context)))];
     recommended_actions := Some (FloodAgent_get_actions risk_level) |}.

Definition FloodAgent : Agent :=
  {| agent_name := "Flood Agent"; agent_priority := 2; agent_status := "active";
     analyze := fun context => inr (FloodAgent_analyze context) |}.

Definition AQIAgent_get_actions (risk_level : string) (aqi : Z) : list Action :=
  if String.eqb risk_level "Critical" then
    [ {| action_name := Some "ACTIVATE_ALL_AIR_PURIFIERS";
         priority := Some "CRITICAL";
         zones := Some "All zones";
         energy_impact_mw := Some 250;
         reason := Some ("AQI " +:+ int_str num aqi +:+ " exceeds critical threshold");
         scope_reduced := None; extras := [] |} ]
  else if String.eqb risk_level "High" then
    [ {| action_name := Some "ACTIVATE_PRIORITY_PURIFIERS";
         priority := Some "HIGH";
         zones := Some "High-traffic zones";
         energy_impact_mw := Some 150;
         reason := Some ("AQI " +:+ int_str num aqi +:+ " is unhealthy");
         scope_reduced := None; extras := [] |} ]
  else [].

Definition AQIAgent_analyze (context : Context) : Analysis :=
  let aqi := default 80 (aqi context) in
  let risk_level :=
    if 200 <? aqi then "Critical"
    else if 150 <? aqi then "High"
    else if 100 <? aqi then "Medium"
    else "Low" in
  {| agent := "AQI Agent";
     risk_level := risk_level;
     details := [("current_aqi", DInt aqi)];
     recommended_actions := Some (AQIAgent_get_actions risk_level aqi) |}.

Definition AQIAgent : Agent :=
  {| agent_name := "AQI Agent"; agent_priority := 3; agent_status := "active";
     analyze := fun context => inr (AQIAgent_analyze context) |}.

Definition EnergyAgent_get_actions (risk_level : string) (utilization : Q)
  : list Action :=
  if String.eqb risk_level "Critical" then
    [ {| action_name := Some "REDUCE_NON_CRITICAL_LOAD";
         priority := Some "CRITICAL";
         zones := Some "All zones";
         energy_impact_mw := Some (-200);
         reason := Some ("Grid utilization " +:+
                         fixed1_str num (utilization * (100 # 1))%Q +:+
                         "% - critical");
         scope_reduced := None; extras := [] |} ]
  else if String.eqb risk_level "High" then
    [ {| action_name := Some "OPTIMIZE_ENERGY_USAGE";
         priority := Some "MEDIUM";
         zones := Some "All zones";
         energy_impact_mw := Some (-100);
         reason := Some ("Grid utilization " +:+
                         fixed1_str num (utilization * (100 # 1))%Q +:+
                         "% - high");
         scope_reduced := None; extras := [] |} ]
  else [].

Definition EnergyAgent_analyze (context : Context) : Analysis :=
  let current_load := default 4500 (energy_load context) in
  let max_capacity := 6000 in
  let utilization := utilization_of current_load in
  let risk_level :=
    if Qltb (95 # 100) utilization then "Critical"
    else if Qltb (85 # 100) utilization then "High"
    else if Qltb (75 # 100) utilization then "Medium"
    else "Low" in
  {| agent := "Energy Agent";
     risk_level := risk_level;
     details := [("current_load_mw", DInt current_load);
                 ("utilization", DFloat (round1 num (utilization * (100 # 1))%Q));
                 ("available_capacity_mw", DInt (max_capacity - current_load))];
     recommended_actions := Some (EnergyAgent_get_actions risk_level utilization) |}.

Definition EnergyAgent : Agent :=
  {| agent_name := "Energy Agent"; agent_priority := 4; agent_status := "active";
     analyze := fun context => inr (EnergyAgent_analyze context) |}.
End Agents.

(** ** Coordinator *)

(** What the outside world hands to one call of [orchestrate]: the values
    returned by the context collaborators and the reading of the clock.  A
    call in which a collaborator raises has no such values: it ends with
    that exception before any agent is consulted, and is outside what
    [orchestrate] below describes. *)
Record World := mkWorld {
  hub_average_temp : Q;               (* hub_status[..]["uhi"]["average_temp"] *)
  hub_flood_risk : string;            (* hub_status[..]["flood"]["risk"] *)
  hub_aqi : Z;                        (* hub_status[..]["air_quality"]["aqi"] *)
  hub_peak_demand : Z;                (* hub_status[..]["energy"]["forecast"]["peak_demand"] *)
  forecast_temperature : TempForecast;
  forecast_flood_risk : FloodForecast;
  detect_temperature_anomalies : Anomalies;
  detect_rainfall_anomalies : Anomalies;
  now_isoformat : string              (* datetime.now().isoformat() *)
}.

Definition build_context (w : World) : Context :=
  {| temperature := Some (hub_average_temp w);
     flood_risk := Some (hub_flood_risk w);
     aqi := Some (hub_aqi w);
     energy_load := Some (hub_peak_demand w);
     temp_forecast := Some (forecast_temperature w);
     flood_forecast := Some (forecast_flood_risk w);
     temp_anomalies := Some (detect_temperature_anomalies w);
     rainfall_anomalies := Some (detect_rainfall_anomalies w);
     system_health := None;
     sensor_connectivity := None;
     pending_actions := None |}.

Record AgentReport := mkAgentReport {
  report_name : string;
  report_priority : Z;
  report_status : string;
  report_analysis : option Analysis   (* [None] is the default [{}] *)
}.

Record Summary := mkSummary {
  active_agents : nat;
  total_recommendations : nat;
  critical_actions : nat;
  high_priority_actions : nat
}.

Record OrchestrationResult := mkResult {
  city : string;
  timestamp : string;
  orchestration_status : string;
  agents : list AgentReport;
  conflicts_detected : Z;
  resolved_actions : list Action;
  total_energy_impact_mw : Z;
  coordination_summary : Summary
}.

Record CoordinatorBrain := mkCoordinatorBrain { self_agents : list Agent }.

Definition CoordinatorBrain_init (num : Numerics) : CoordinatorBrain :=
  {| self_agents := [HeatAgent num; FloodAgent; AQIAgent num; EnergyAgent num] |}.

(** The loop over the agents in priority order: an exception raised by
    [analyze] leaves the loop (and [orchestrate]); otherwise the analyses
    and the concatenated recommendations. *)
Fixpoint analyze_loop (agents : list Agent) (context : Context)
  : Exn + (list Analysis * list Action) :=
  match agents with
  | [] => inr ([], [])
  | a :: rest =>
    match analyze a context with
    | inl e => inl e
    | inr analysis =>
      match analyze_loop rest context with
      | inl e => inl e
      | inr (agent_analyses, all_actions) =>
        inr (analysis :: agent_analyses,
             default [] (recommended_actions analysis) ++ all_actions)
      end
    end
  end.

(** [str(x)] of the result of a [dict.get]. *)
Definition py_str (x : option string) : string := default "None" x.

Definition action_key (a : Action) : string :=
  py_str (action_name a) +:+ "_" +:+ py_str (zones a).

Fixpoint dedup_loop (actions : list Action) (seen_actions : list string)
  : list Action :=
  match actions with
  | [] => []
  | a :: rest =>
    if negb (existsb (String.eqb (action_key a)) seen_actions)
    then a :: dedup_loop rest (action_key a :: seen_actions)
    else dedup_loop rest seen_actions
  end.

Definition _simple_resolve (actions : list Action) (context : Context)
  : list Action :=
  dedup_loop (sorted priority_key actions) [].

Definition count_priority (p : string) (l : list Action) : nat :=
  length (List.filter (fun a => get_eq (priority a) p) l).

Definition orchestrate (self : CoordinatorBrain) (city_ : string)
    (policy_engine : option PolicyEngine) (w : World)
  : Exn + OrchestrationResult :=
  let context := build_context w in
  match analyze_loop (sorted agent_priority (self_agents self)) context with
  | inl e => inl e
  | inr (agent_analyses, all_actions) =>
    let resolved :=
      match policy_engine with
      | Some pe => resolve_conflicts pe all_actions context
      | None => _simple_resolve all_actions context
      end in
    inr {| city := city_;
           timestamp := now_isoformat w;
           orchestration_status := "active";
           agents :=
             map (fun a =>
                    mkAgentReport (agent_name a) (agent_priority a) (agent_status a)
                      (find (fun ag => String.eqb (agent ag) (agent_name a))
                            agent_analyses))
                 (self_agents self);
           conflicts_detected :=
             Z.of_nat (length all_actions) - Z.of_nat (length resolved);
           resolved_actions := resolved;
           total_energy_impact_mw := total_impact resolved;
           coordination_summary :=
             {| active_agents :=
                  length (List.filter (fun a => String.eqb (agent_status a) "active")
                                 (self_agents self));
                total_recommendations := length resolved;
                critical_actions := count_priority "CRITICAL" resolved;
                high_priority_actions := count_priority "HIGH" resolved |} |}
  end.

Definition get_multi_agent_orchestration (num : Numerics) (city_ : string)
    (policy_engine : option PolicyEngine) (w : World) :=
  orchestrate (CoordinatorBrain_init num) city_ policy_engine w.

(** The action-pair stage with the order in which the set [conflicts] is
    iterated made explicit: the source loops over a set of tuples of
    strings, whose iteration order depends on the interpreter's string
    hashing. *)
Definition _resolve_action_conflict_in_order (pairs : list (string * string))
    (actions : list Action) (context : Context) : list Action :=
  action_loop pairs actions actions [].

Definition resolve_conflicts_in_order (pairs : list (string * string))
    (self : PolicyEngine) (actions : list Action) (context : Context)
  : list Action :=
  fold_left (fun resolved conflict_rule => snd conflict_rule resolved context)
            [("energy_conflict", _resolve_energy_conflict);
             ("zone_conflict", _resolve_zone_conflict);
             ("action_conflict", _resolve_action_conflict_in_order pairs)]
            (validated_actions self actions context).

(** [orchestrate] with that order as a parameter; at the order [conflicts]
    it is [orchestrate]. *)
Definition orchestrate_in_order (pairs : list (string * string))
    (self : CoordinatorBrain) (city_ : string)
    (policy_engine : option PolicyEngine) (w : World)
  : Exn + OrchestrationResult :=
  let context := build_context w in
  match analyze_loop (sorted agent_priority (self_agents self)) context with
  | inl e => inl e
  | inr (agent_analyses, all_actions) =>
    let resolved :=
      match policy_engine with
      | Some pe => resolve_conflicts_in_order pairs pe all_actions context
      | None => _simple_resolve all_actions context
      end in
    inr {| city := city_;
           timestamp := now_isoformat w;
           orchestration_status := "active";
           agents :=
             map (fun a =>
                    mkAgentReport (agent_name a) (agent_priority a) (agent_status a)
                      (find (fun ag => String.eqb (agent ag) (agent_name a))
                            agent_analyses))
                 (self_agents self);
           conflicts_detected :=
             Z.of_nat (length all_actions) - Z.of_nat (length resolved);
           resolved_actions := resolved;
           total_energy_impact_mw := total_impact resolved;
           coordination_summary :=
             {| active_agents :=
                  length (List.filter (fun a => String.eqb (agent_status a) "active")
                                 (self_agents self));
                total_recommendations := length resolved;
                critical_actions := count_priority "CRITICAL" resolved;
                high_priority_actions := count_priority "HIGH" resolved |} |}
  end.

(** ** Simulation state (command_hub.py) *)

(** The module-level dict [SIMULATION_STATE], which [trigger_response]
    updates and [get_command_hub_status] reads. *)
Record SimulationState := mkSimulationState {
  extra_load : Z;
  active_interventions : list string
}.

Definition SIMULATION_STATE : SimulationState :=
  {| extra_load := 0; active_interventions := [] |}.

Record TriggerResponse := mkTriggerResponse {
  response_status : string;
  response_message : string;
  response_timestamp : string         (* datetime.now().isoformat() *)
}.

(** The [if system == ...] chain setting [load_impact]. *)
Definition load_impact_of (system : string) : Z :=
  if String.eqb system "Cooling" then 150
  else if String.eqb system "Flood" then 300
  else if String.eqb system "Air" then 200
  else 0.

(** [trigger_response(system, action, target)] from the state [st] at the
    clock reading [now]: the new state and the returned dict. *)
Definition trigger_response (st : SimulationState)
    (system action_ target now : string) : SimulationState * TriggerResponse :=
  let load_impact := load_impact_of system in
  let intervention_desc := system +:+ ": " +:+ action_ in
  ({| extra_load := extra_load st + load_impact;
      active_interventions :=
        if negb (existsb (String.eqb intervention_desc) (active_interventions st))
        then take 3 (intervention_desc :: active_interventions st)
        else active_interventions st |},
   {| response_status := "Success";
      response_message :=
        "Initiated " +:+ action_ +:+ " on " +:+ system +:+ " for " +:+ target +:+
        ". Grid Load Impact: +" +:+ pretty load_impact +:+ "MW";
      response_timestamp := now |}).

(** * Vocabulary of the properties *)

(** ** Capacity stage *)

(** No action sheds load. *)
Definition nonneg_impacts (l : list Action) : Prop :=
  Forall (fun a => 0 <= impact a) l.

(** [b] is [a] with its scope reduced by the capacity stage. *)
Definition clipped (a b : Action) : Prop :=
  priority a = Some "CRITICAL" /\
  exists v, v < impact a /\ b = reduce_scope a v.

Definition kept_or_clipped (a b : Action) : Prop := b = a \/ clipped a b.

(** The actions of a list are accepted one after the other from the
    running total [cum]. *)
Fixpoint all_fit (available : Z) (l : list Action) (cum : Z) : Prop :=
  match l with
  | [] => True
  | a :: rest =>
    cum + impact a <= available /\ all_fit available rest (cum + impact a)
  end.

(** The capacity invariant as the specification states it, in its weakest
    reading: the sum is within the available capacity, or some CRITICAL
    input action exceeding the available capacity on its own is present
    with its scope reduced. *)
Definition capacity_claim (actions : list Action) (context : Context) : Prop :=
  let out := _resolve_energy_conflict actions context in
  total_impact out <= available_capacity context \/
  exists a b, a ∈ actions /\ available_capacity context < impact a /\
              b ∈ out /\ clipped a b.

(** The specification's reading of an overflow by a non-CRITICAL action:
    nothing after the accepted prefix is returned. *)
Definition drop_rest_claim (actions : list Action) (context : Context)
    (pre : list Action) (a : Action) (post : list Action) : Prop :=
  let available := available_capacity context in
  available < total_impact actions ->
  sorted priority_key actions = pre ++ a :: post ->
  all_fit available pre 0 ->
  available < total_impact pre + impact a ->
  priority a <> Some "CRITICAL" ->
  _resolve_energy_conflict actions context = pre.

(** The scan as the amended reading of a non-CRITICAL overflow has it: an
    action is accepted when it fits the running total and skipped
    otherwise; nothing is clipped and nothing ends the scan. *)
Fixpoint accept_fitting (available : Z) (l : list Action) (cum : Z)
  : list Action :=
  match l with
  | [] => []
  | b :: rest =>
    if cum + impact b <=? available
    then b :: accept_fitting available rest (cum + impact b)
    else accept_fitting available rest cum
  end.

(** ** Zone stage *)

(** The dict [zone_actions] while it is being filled: distinct keys, no
    empty group, every action filed under its own zone key. *)
Definition zone_groups_ok (g : list (string * list Action)) : Prop :=
  NoDup (map fst g) /\
  Forall (fun kl => snd kl <> [] /\ Forall (fun a => zone_key a = fst kl) (snd kl)) g.

(** The grouping loop started from a partly filled dict. *)
Definition zone_fold (g : list (string * list Action)) (l : list Action) :=
  fold_left (fun zone_actions a => zone_append (zone_key a) a zone_actions) l g.

(** ** Validation with the registered policies *)

(** The DEFER policy matches. *)
Definition deferred (context : Context) (a : Action) : bool :=
  condition cooling_during_peak context a.

(** One of the two BLOCK policies matches. *)
Definition blocked (context : Context) (a : Action) : bool :=
  condition energy_threshold context a || condition conflicting_barriers context a.

(** [all(r["passed"] for r in safety_results)], read off the checks. *)
Definition all_safe (self : PolicyEngine) (context : Context) : bool :=
  forallb (fun c => check c context) (safety_checks self).

Definition accepted (context : Context) (a : Action) : bool :=
  negb (deferred context a) && negb (blocked context a) &&
  all_safe get_policy_engine context.

(** The action a valid report carries. *)
Definition rewritten (context : Context) (a : Action) : Action :=
  if condition aqi_cooling_conflict context a then air_filter_modification a else a.

(** One of the three registered checks fails. *)
Definition safety_failure (context : Context) : Prop :=
  6000 <= default 0 (energy_load context) \/
  default "operational" (system_health context) <> "operational" \/
  (default (95 # 100) (sensor_connectivity context) <= 8 # 10)%Q.

(** As the specification states it: under a failing check every validation
    is invalid and lists the failing checks. *)
Definition safety_claim (a : Action) (context : Context) : Prop :=
  safety_failure context ->
  let v := validate_action get_policy_engine a context in
  is_valid v = false /\
  exists sr, get_safety_checks v = Some sr /\
             exists r, r ∈ sr /\ passed r = false.

(** ** Frame of resolution *)

(** How a resolved action [b] may differ from the candidate [a] it comes
    from: name and reason only by the aqi_cooling_conflict rewrite, impact
    and [scope_reduced] only by a reduction of a CRITICAL action. *)
Definition frame (context : Context) (a b : Action) : Prop :=
  priority b = priority a /\ zones b = zones a /\ extras b = extras a /\
  ((action_name b = action_name a /\ reason b = reason a) \/
   (condition aqi_cooling_conflict context a = true /\
    action_name b = Some "ACTIVATE_COOLING_WITH_AIR_FILTER" /\
    reason b = Some (default "" (reason a) +:+ " (with air filtration)"))) /\
  ((energy_impact_mw b = energy_impact_mw a /\ scope_reduced b = scope_reduced a) \/
   (priority a = Some "CRITICAL" /\ scope_reduced b = Some true /\
    exists v, energy_impact_mw b = Some v /\ v < impact a)).

(** ** Heat thresholds *)

(** The thresholds as the specification words them: below 32 Low, from 32
    Medium, from 35 High, from 38 Critical. *)
Definition heat_claim (num : Numerics) (context : Context) : Prop :=
  temp_forecast context = None ->
  let temp := default (30 # 1)%Q (temperature context) in
  risk_level (HeatAgent_analyze num context) =
  if Qltb temp (32 # 1) then "Low"
  else if Qltb temp (35 # 1) then "Medium"
  else if Qltb temp (38 # 1) then "High"
  else "Critical".

(** ** Results up to the clock *)

Definition erase_timestamp (r : Exn + OrchestrationResult)
  : Exn + OrchestrationResult :=
  match r with
  | inl e => inl e
  | inr r =>
    inr {| city := city r; timestamp := "";
           orchestration_status := orchestration_status r;
           agents := agents r;
           conflicts_detected := conflicts_detected r;
           resolved_actions := resolved_actions r;
           total_energy_impact_mw := total_energy_impact_mw r;
           coordination_summary := coordination_summary r |}
  end.

(** ** Concrete inputs *)

(** A context dict with the single key [energy_load]. *)
Definition context_with_load (load : Z) : Context :=
  {| temperature := None; flood_risk := None; aqi := None;
     energy_load := Some load;
     temp_forecast := None; flood_forecast := None;
     temp_anomalies := None; rainfall_anomalies := None;
     system_health := None; sensor_connectivity := None;
     pending_actions := None |}.

(** A context dict with the single key [temperature]. *)
Definition context_with_temperature (t : Q) : Context :=
  {| temperature := Some t; flood_risk := None; aqi := None;
     energy_load := None;
     temp_forecast := None; flood_forecast := None;
     temp_anomalies := None; rainfall_anomalies := None;
     system_health := None; sensor_connectivity := None;
     pending_actions := None |}.

(** An action dict with the five keys the agents set. *)
Definition simple_action (name prio zone : string) (mw : Z) : Action :=
  {| action_name := Some name; priority := Some prio; zones := Some zone;
     energy_impact_mw := Some mw; reason := Some "requested";
     scope_reduced := None; extras := [] |}.

(** A rendering of numbers, to run the agents on concrete inputs; no
    property depends on it. *)
Definition sample_numerics : Numerics :=
  {| float_str := fun _ => "<float>";
     int_str := fun _ => "<int>";
     fixed1_str := fun _ => "<fixed>";
     round1 := fun q => q |}.

(** A hot day at nominal load, read at the clock value [now]. *)
Definition sample_world (now : string) : World :=
  {| hub_average_temp := (39 # 1)%Q;
     hub_flood_risk := "Low";
     hub_aqi := 80;
     hub_peak_demand := 4500;
     forecast_temperature := {| statistics_maximum := Some (36 # 1)%Q |};
     forecast_flood_risk := {| risk_assessment_overall_risk := Some "Low" |};
     detect_temperature_anomalies := {| anomaly_count := Some 0 |};
     detect_rainfall_anomalies := {| anomaly_count := Some 0 |};
     now_isoformat := now |}.

(** ** Policy registries *)

(** An engine whose registry lacks the ALLOW policies. *)
Definition without_allow (self : PolicyEngine) : PolicyEngine :=
  {| policies :=
       List.filter (fun p => match effect p with ALLOW => false | _ => true end)
                   (policies self);
     safety_checks := safety_checks self |}.

(** One violation per matching BLOCK policy, in registration order. *)
Definition expected_violations (context : Context) (a : Action) : list Violation :=
  (if condition energy_threshold context a
   then [mkViolation "energy_threshold" (policy_rule energy_threshold)
           "Energy capacity sufficient, barriers not needed"]
   else []) ++
  (if condition conflicting_barriers context a
   then [mkViolation "conflicting_barriers" (policy_rule conflicting_barriers)
           "Conflicting barrier actions detected"]
   else []).

Definition expected_modifications (context : Context) (a : Action)
  : list Modification :=
  if condition aqi_cooling_conflict context a
  then [mkModification "aqi_cooling_conflict"
          "Cooling activated with air filtration due to high AQI"]
  else [].

(** A RAISE_COASTAL_BARRIERS is pending in the context. *)
Definition raise_pending (context : Context) : Prop :=
  exists p, p ∈ default [] (pending_actions context) /\
            action_name p = Some "RAISE_COASTAL_BARRIERS".

(** ** Zone groups *)

(** The group the zone stage has filed under [k]. *)
Definition group_of (k : string) (g : list (string * list Action)) : list Action :=
  match find (fun kl => String.eqb (fst kl) k) g with
  | Some kl => snd kl
  | None => []
  end.

(** The actions of zone [k], in their order. *)
Definition zone_members (k : string) (l : list Action) : list Action :=
  List.filter (fun a => String.eqb (zone_key a) k) l.

(** The first action of the list with the zone key and the rank of [b]. *)
Definition first_like (b : Action) (l : list Action) : option Action :=
  find (fun a => String.eqb (zone_key a) (zone_key b) &&
                 (priority_key a =? priority_key b)) l.

(** ** Risk levels *)

Definition risk_rank (level : string) : Z :=
  if String.eqb level "Critical" then 3
  else if String.eqb level "High" then 2
  else if String.eqb level "Medium" then 1
  else 0.

(** The context without its [temp_forecast] key. *)
Definition without_forecast (context : Context) : Context :=
  {| temperature := temperature context;
     flood_risk := flood_risk context;
     aqi := aqi context;
     energy_load := energy_load context;
     temp_forecast := None;
     flood_forecast := flood_forecast context;
     temp_anomalies := temp_anomalies context;
     rainfall_anomalies := rainfall_anomalies context;
     system_health := system_health context;
     sensor_connectivity := sensor_connectivity context;
     pending_actions := pending_actions context |}.

(** ** Runs of trigger_response *)

Record TriggerCall := mkTriggerCall {
  call_system : string; call_action : string; call_target : string;
  call_now : string
}.

(** The state after a sequence of calls. *)
Definition after_calls (st : SimulationState) (calls : list TriggerCall)
  : SimulationState :=
  fold_left (fun st c =>
               fst (trigger_response st (call_system c) (call_action c)
                                     (call_target c) (call_now c)))
            calls st.

(** [analysis.get("recommended_actions", [])] *)
Definition agent_actions (an : Analysis) : list Action :=
  default [] (recommended_actions an).

(** [f"{system}: {action}"] of a call. *)
Definition call_desc (c : TriggerCall) : string :=
  call_system c +:+ ": " +:+ call_action c.

(** The load impacts of a sequence of calls, added up. *)
Definition total_load_impact (calls : list TriggerCall) : Z :=
  fold_right (fun c s => load_impact_of (call_system c) + s) 0 calls.

(** The list of active interventions has no duplicates and at most three
    entries. *)
Definition interventions_ok (st : SimulationState) : Prop :=
  NoDup (active_interventions st) /\ (length (active_interventions st) <= 3)%nat.

(** * Properties *)

(** ** Ranks and comparisons *)

Lemma Qltb_lt (x y : Q) : Qltb x y = true <-> (x < y)%Q.
Proof.
  unfold Qltb. rewrite negb_true_iff.
  destruct (Qle_bool y x) eqn:E.
  - apply Qle_bool_iff in E. split; [discriminate|].
    intros H. exfalso. exact (Qlt_not_le _ _ H E).
  - split; [|reflexivity]. intros _.
    apply Qnot_le_lt. intros H. apply Qle_bool_iff in H. congruence.
Qed.

Lemma Qltb_ge (x y : Q) : Qltb x y = false <-> (y <= x)%Q.
Proof.
  unfold Qltb. rewrite negb_false_iff. apply Qle_bool_iff.
Qed.

(** On integer loads the utilisation tests are integer comparisons. *)
Lemma utilization_above (load n : Z) :
  Qltb (n # 10) (utilization_of load) = true <-> 600 * n < load.
Proof.
  unfold Qltb. rewrite negb_true_iff.
  unfold utilization_of, Qle_bool, Qdiv, Qmult, Qinv, inject_Z. simpl.
  rewrite Pos.mul_1_l, Z.leb_gt. lia.
Qed.

Lemma utilization_below (load n : Z) :
  Qltb (utilization_of load) (n # 10) = true <-> load < 600 * n.
Proof.
  unfold Qltb. rewrite negb_true_iff.
  unfold utilization_of, Qle_bool, Qdiv, Qmult, Qinv, inject_Z. simpl.
  rewrite Pos.mul_1_l, Z.leb_gt. lia.
Qed.

Lemma get_eq_true (x : option string) (s : string) :
  get_eq x s = true <-> x = Some s.
Proof.
  destruct x as [t|]; simpl.
  - rewrite String.eqb_eq. split; congruence.
  - split; discriminate.
Qed.

Lemma get_eq_false (x : option string) (s : string) :
  get_eq x s = false <-> x <> Some s.
Proof.
  rewrite <- get_eq_true. destruct (get_eq x s); split; congruence.
Qed.

Lemma priority_key_range (a : Action) : 0 <= priority_key a <= 3.
Proof.
  unfold priority_key, priority_order. cbn [dict_get].
  repeat match goal with |- context [String.eqb ?x ?y] => destruct (String.eqb x y) end;
    lia.
Qed.

(** Rank 0 is exactly the test [action.get("priority") == "CRITICAL"]. *)
Lemma priority_key_critical (a : Action) :
  get_eq (priority a) "CRITICAL" = true <-> priority_key a = 0.
Proof.
  unfold priority_key, priority_order.
  destruct (priority a) as [p|]; cbn [dict_get default from_option id get_eq].
  - rewrite (String.eqb_sym p "CRITICAL").
    destruct (String.eqb "CRITICAL" p); [tauto|].
    repeat match goal with |- context [String.eqb ?x ?y] => destruct (String.eqb x y) end;
      split; (discriminate || lia).
  - split; [discriminate|]. vm_compute. discriminate.
Qed.

(** ** The stable sort *)

Section SortedFacts.
Context {A : Type} (key : A -> Z).

Lemma insert_by_perm (x : A) (l : list A) : insert_by key x l ≡ₚ x :: l.
Proof.
  induction l as [|y l IH]; simpl; [reflexivity|].
  destruct (key x <=? key y); [reflexivity|].
  rewrite IH. apply perm_swap.
Qed.

Lemma sorted_perm (l : list A) : sorted key l ≡ₚ l.
Proof.
  induction l as [|x l IH]; simpl; [reflexivity|].
  rewrite insert_by_perm. by rewrite IH.
Qed.

Lemma ascending_nil : ascending key [].
Proof. intros [|] ? ? ? E; discriminate E. Qed.

Lemma ascending_cons (x : A) (l : list A) :
  (forall y, y ∈ l -> key x <= key y) -> ascending key l -> ascending key (x :: l).
Proof.
  intros Hx Hl [|p pre] z post y E Hy; simpl in E; injection E as <- E.
  - subst. by apply Hx.
  - eapply Hl; eauto.
Qed.

Lemma ascending_inv (x : A) (l : list A) :
  ascending key (x :: l) -> (forall y, y ∈ l -> key x <= key y) /\ ascending key l.
Proof.
  intros H. split.
  - intros y Hy. by apply (H [] x l y).
  - intros pre z post y E Hy. apply (H (x :: pre) z post y); [|done].
    simpl. by rewrite E.
Qed.

Lemma insert_by_ascending (x : A) (l : list A) :
  ascending key l -> ascending key (insert_by key x l).
Proof.
  induction l as [|y l IH]; simpl; intros Hl.
  - apply ascending_cons; [|apply ascending_nil]. intros y Hy. inversion Hy.
  - apply ascending_inv in Hl as [Hy Hl].
    destruct (Z.leb_spec (key x) (key y)).
    + apply ascending_cons.
      * intros z Hz. apply elem_of_cons in Hz as [->|Hz]; [done|].
        specialize (Hy z Hz). lia.
      * by apply ascending_cons.
    + apply ascending_cons; [|by apply IH].
      intros z Hz. rewrite insert_by_perm in Hz.
      apply elem_of_cons in Hz as [->|Hz]; [lia|by apply Hy].
Qed.

Lemma sorted_ascending (l : list A) : ascending key (sorted key l).
Proof.
  induction l as [|x l IH]; simpl; [apply ascending_nil|].
  by apply insert_by_ascending.
Qed.

(** The sort is stable: elements of equal key keep their order, so on an
    already ascending list it changes nothing. *)
Lemma insert_by_head (x : A) (l : list A) :
  (forall y, y ∈ l -> key x <= key y) -> insert_by key x l = x :: l.
Proof.
  destruct l as [|y l]; simpl; [done|]. intros H.
  destruct (Z.leb_spec (key x) (key y)); [done|].
  specialize (H y ltac:(left)). lia.
Qed.

Lemma sorted_id (l : list A) : ascending key l -> sorted key l = l.
Proof.
  induction l as [|x l IH]; simpl; [done|]. intros H.
  apply ascending_inv in H as [Hx Hl].
  rewrite IH by done. by apply insert_by_head.
Qed.

Lemma sorted_length (l : list A) : length (sorted key l) = length l.
Proof. apply Permutation_length, sorted_perm. Qed.
End SortedFacts.

(** ** Sums of impacts *)

Lemma total_impact_app (l k : list Action) :
  total_impact (l ++ k) = total_impact l + total_impact k.
Proof. induction l as [|a l IH]; simpl; lia. Qed.

Lemma total_impact_perm (l k : list Action) :
  l ≡ₚ k -> total_impact l = total_impact k.
Proof. induction 1; simpl; lia. Qed.

Lemma total_impact_nonneg (l : list Action) :
  nonneg_impacts l -> 0 <= total_impact l.
Proof. induction 1; simpl; lia. Qed.

(** Dropping actions of non-negative impact cannot raise the sum. *)
Lemma total_impact_submseteq (l k : list Action) :
  l ⊆+ k -> nonneg_impacts k -> total_impact l <= total_impact k.
Proof.
  intros Hsub Hk. apply submseteq_Permutation in Hsub as [rest Hp].
  rewrite (total_impact_perm _ _ Hp), total_impact_app.
  assert (nonneg_impacts rest) as Hrest.
  { unfold nonneg_impacts in *. rewrite Hp in Hk.
    by apply Forall_app in Hk as [_ ?]. }
  pose proof (total_impact_nonneg rest Hrest). lia.
Qed.

(** ** Capacity stage *)

Section EnergyLoop.
Variable available : Z.

Lemma energy_loop_origin (l : list Action) (cum : Z) :
  exists origins,
    origins `sublist_of` l /\
    Forall2 kept_or_clipped origins (energy_loop available l cum).
Proof.
  revert cum. induction l as [|a l IH]; intros cum; simpl.
  - exists []. split; constructor.
  - destruct (Z.leb_spec (cum + impact a) available) as [Hfit|Hover].
    + destruct (IH (cum + impact a)) as (o & Ho & HF).
      exists (a :: o). split; [by constructor|].
      constructor; [by left|done].
    + destruct (get_eq (priority a) "CRITICAL") eqn:Hc.
      * exists [a]. split.
        { apply sublist_skip, sublist_nil_l. }
        constructor; [|constructor]. right. split.
        { by apply get_eq_true. }
        exists (available - cum). split; [lia|done].
      * destruct (IH cum) as (o & Ho & HF).
        exists o. split; [by constructor|done].
Qed.

Lemma energy_loop_total (l : list Action) (cum : Z) :
  cum <= available ->
  cum + total_impact (energy_loop available l cum) <= available.
Proof.
  revert cum. induction l as [|a l IH]; intros cum Hc; simpl; [lia|].
  destruct (Z.leb_spec (cum + impact a) available) as [Hfit|Hover].
  - simpl. specialize (IH _ Hfit). lia.
  - destruct (get_eq (priority a) "CRITICAL").
    + unfold total_impact, impact. simpl. lia.
    + by apply IH.
Qed.

Lemma energy_loop_nonneg (l : list Action) (cum : Z) :
  cum <= available -> nonneg_impacts l ->
  nonneg_impacts (energy_loop available l cum).
Proof.
  revert cum. induction l as [|a l IH]; intros cum Hc Hl; simpl; [constructor|].
  apply Forall_cons in Hl as [Ha Hl].
  destruct (Z.leb_spec (cum + impact a) available) as [Hfit|Hover].
  - constructor; [done|]. by apply IH.
  - destruct (get_eq (priority a) "CRITICAL").
    + constructor; [|constructor]. unfold impact. simpl. lia.
    + by apply IH.
Qed.

(** A prefix that fits is accepted as it is. *)
Lemma energy_loop_fit (pre rest : list Action) (cum : Z) :
  all_fit available pre cum ->
  energy_loop available (pre ++ rest) cum =
  pre ++ energy_loop available rest (cum + total_impact pre).
Proof.
  revert cum. induction pre as [|a pre IH]; intros cum; simpl.
  - intros _. f_equal. lia.
  - intros [Ha Hpre]. destruct (Z.leb_spec (cum + impact a) available); [|lia].
    rewrite IH by done. by rewrite Z.add_assoc.
Qed.

(** Without a CRITICAL action nothing is clipped: the loop returns a
    sublist of its input. *)
Lemma energy_loop_sublist (l : list Action) (cum : Z) :
  Forall (fun a => get_eq (priority a) "CRITICAL" = false) l ->
  energy_loop available l cum `sublist_of` l.
Proof.
  revert cum. induction l as [|a l IH]; intros cum Hl; simpl; [constructor|].
  apply Forall_cons in Hl as [Ha Hl].
  destruct (cum + impact a <=? available).
  - apply sublist_skip. by apply IH.
  - rewrite Ha. apply sublist_cons. by apply IH.
Qed.
End EnergyLoop.

(** In the sorted order nothing CRITICAL follows a non-CRITICAL action. *)
Lemma sorted_after_non_critical (actions pre post : list Action) (a : Action) :
  sorted priority_key actions = pre ++ a :: post ->
  get_eq (priority a) "CRITICAL" = false ->
  Forall (fun b => get_eq (priority b) "CRITICAL" = false) post.
Proof.
  intros Hs Ha. apply Forall_forall. intros b Hb.
  pose proof (sorted_ascending priority_key actions _ _ _ _ Hs Hb) as Hle.
  destruct (get_eq (priority b) "CRITICAL") eqn:Hcb; [|done].
  apply priority_key_critical in Hcb.
  assert (priority_key a = 0) as H0 by (pose proof (priority_key_range a); lia).
  apply priority_key_critical in H0. congruence.
Qed.

(** ** Zone stage *)

Lemma zone_append_fresh (z : string) (a : Action) (g : list (string * list Action)) :
  z ∉ map fst g -> zone_append z a g = g ++ [(z, [a])].
Proof.
  induction g as [|[k l] g IH]; simpl; [done|]. intros Hz.
  apply not_elem_of_cons in Hz as [Hne Hz].
  destruct (String.eqb_spec k z); [congruence|]. by rewrite IH.
Qed.

Lemma zone_append_keys (z : string) (a : Action) (g : list (string * list Action)) :
  z ∈ map fst g -> map fst (zone_append z a g) = map fst g.
Proof.
  induction g as [|[k l] g IH]; simpl; [by intros ?%elem_of_nil|]. intros Hz.
  destruct (String.eqb_spec k z); [done|]. simpl. f_equal. apply IH.
  apply elem_of_cons in Hz as [->|]; [congruence|done].
Qed.

Lemma zone_append_members (z : string) (a : Action) (g : list (string * list Action)) :
  concat (map snd (zone_append z a g)) ≡ₚ concat (map snd g) ++ [a].
Proof.
  induction g as [|[k l] g IH]; simpl; [done|].
  destruct (String.eqb k z); simpl.
  - rewrite <- !app_assoc. apply Permutation_app_head, Permutation_app_comm.
  - by rewrite IH, app_assoc.
Qed.

Lemma zone_append_ok (a : Action) (g : list (string * list Action)) :
  zone_groups_ok g -> zone_groups_ok (zone_append (zone_key a) a g).
Proof.
  intros [Hnd Hall]. split.
  - destruct (decide (zone_key a ∈ map fst g)) as [Hin|Hnin].
    + by rewrite zone_append_keys.
    + rewrite zone_append_fresh by done. rewrite map_app. simpl.
      apply NoDup_app. split; [done|]. split; [|apply NoDup_singleton].
      intros x Hx Hx'. apply list_elem_of_singleton in Hx'. by subst.
  - clear Hnd. induction Hall as [|[k l] g [Hne Hk] Hall IH]; simpl.
    + constructor; [|constructor]. simpl. split; [done|].
      by constructor.
    + destruct (String.eqb_spec k (zone_key a)) as [->|Hneq].
      * constructor; [|done]. simpl in *. split.
        { by destruct l. }
        apply Forall_app. split; [done|]. by constructor.
      * by constructor.
Qed.

Lemma zone_fold_ok (l : list Action) (g : list (string * list Action)) :
  zone_groups_ok g -> zone_groups_ok (zone_fold g l).
Proof.
  revert g. induction l as [|a l IH]; intros g Hg; simpl; [done|].
  by apply IH, zone_append_ok.
Qed.

Lemma zone_fold_members (l : list Action) (g : list (string * list Action)) :
  concat (map snd (zone_fold g l)) ≡ₚ concat (map snd g) ++ l.
Proof.
  revert g. induction l as [|a l IH]; intros g; simpl.
  - by rewrite app_nil_r.
  - change (fold_left _ l ?g') with (zone_fold g' l).
    rewrite IH, zone_append_members, <- app_assoc. done.
Qed.

(** A non-empty group contributes exactly one of its members. *)
Lemma zone_choice_member (m : list Action) :
  m <> [] -> exists x, zone_choice m = [x] /\ x ∈ m.
Proof.
  intros Hm. destruct m as [|a m]; [done|].
  destruct m as [|b m].
  - exists a. split; [done|]. by left.
  - unfold zone_choice.
    pose proof (sorted_perm priority_key (a :: b :: m)) as Hp.
    destruct (sorted priority_key (a :: b :: m)) as [|x s].
    + apply Permutation_nil_l in Hp. discriminate.
    + exists x. split; [done|]. rewrite <- Hp. by left.
Qed.

Lemma zone_choice_submseteq (m : list Action) : zone_choice m ⊆+ m.
Proof.
  destruct m as [|a m]; [done|].
  destruct (zone_choice_member (a :: m)) as (x & -> & Hx); [done|].
  by apply singleton_submseteq_l.
Qed.

Lemma zone_resolved_submseteq (g : list (string * list Action)) :
  flat_map (fun kl => zone_choice (snd kl)) g ⊆+ concat (map snd g).
Proof.
  induction g as [|[k m] g IH]; simpl; [done|].
  apply submseteq_app; [apply zone_choice_submseteq|done].
Qed.

Lemma zone_resolved_keys (g : list (string * list Action)) :
  zone_groups_ok g ->
  map zone_key (flat_map (fun kl => zone_choice (snd kl)) g) = map fst g.
Proof.
  intros [_ Hall]. induction Hall as [|[k m] g [Hne Hk] Hall IH]; simpl; [done|].
  simpl in *. destruct (zone_choice_member m Hne) as (x & -> & Hx).
  simpl. rewrite IH. f_equal.
  rewrite Forall_forall in Hk. by apply Hk.
Qed.

Lemma zone_groups_ok_nil : zone_groups_ok [].
Proof. split; constructor. Qed.

(** The zone stage only drops actions. *)
Lemma resolve_zone_submseteq (actions : list Action) (context : Context) :
  _resolve_zone_conflict actions context ⊆+ actions.
Proof.
  unfold _resolve_zone_conflict, group_by_zone.
  etransitivity; [apply zone_resolved_submseteq|].
  change (fold_left _ actions []) with (zone_fold [] actions).
  by rewrite zone_fold_members.
Qed.

(** Zone uniqueness: no two resolved actions share a zone key. *)
Lemma resolve_zone_NoDup (actions : list Action) (context : Context) :
  NoDup (map zone_key (_resolve_zone_conflict actions context)).
Proof.
  unfold _resolve_zone_conflict, group_by_zone.
  change (fold_left _ actions []) with (zone_fold [] actions).
  pose proof (zone_fold_ok actions [] zone_groups_ok_nil) as Hok.
  rewrite zone_resolved_keys by done. apply Hok.
Qed.

Lemma zone_fold_distinct (l : list Action) (g : list (string * list Action)) :
  NoDup (map fst g ++ map zone_key l) ->
  zone_fold g l = g ++ map (fun a => (zone_key a, [a])) l.
Proof.
  revert g. induction l as [|a l IH]; intros g Hnd; simpl.
  - by rewrite app_nil_r.
  - change (fold_left _ l ?g') with (zone_fold g' l).
    assert (zone_key a ∉ map fst g) as Hfresh.
    { apply NoDup_app in Hnd as (_ & Hdis & _). intros Hin.
      apply (Hdis _ Hin). by left. }
    rewrite zone_append_fresh by done.
    rewrite IH.
    + by rewrite <- app_assoc.
    + rewrite map_app. simpl. rewrite <- app_assoc. exact Hnd.
Qed.

(** On actions with pairwise distinct zone keys the zone stage is the
    identity. *)
Lemma resolve_zone_distinct (actions : list Action) (context : Context) :
  NoDup (map zone_key actions) ->
  _resolve_zone_conflict actions context = actions.
Proof.
  intros Hnd. unfold _resolve_zone_conflict, group_by_zone.
  change (fold_left _ actions []) with (zone_fold [] actions).
  rewrite zone_fold_distinct by done. simpl.
  clear Hnd. induction actions as [|a l IH]; simpl; [done|]. by rewrite IH.
Qed.

(** ** Action-pair stage *)

(** Every action is appended exactly once, inside the pair loop or after
    it, whatever the pairs and the conflicts seen so far. *)
Lemma action_loop_id (pairs : list (string * string)) (actions todo : list Action)
    (seen : list (string * string)) :
  action_loop pairs actions todo seen = todo.
Proof.
  revert seen. induction todo as [|a todo IH]; intros seen; simpl; [done|].
  destruct (pair_loop actions a seen pairs); by rewrite IH.
Qed.

Lemma resolve_action_conflict_id (actions : list Action) (context : Context) :
  _resolve_action_conflict actions context = actions.
Proof. apply action_loop_id. Qed.

(** ** Validation with the registered policies *)

Lemma safety_results_passed (self : PolicyEngine) (context : Context) :
  forallb passed (map (run_safety_check context) (safety_checks self)) =
  all_safe self context.
Proof.
  unfold all_safe. induction (safety_checks self) as [|c cs IH]; simpl; [done|].
  rewrite IH. unfold run_safety_check. by destruct (check c context).
Qed.

Lemma validate_action_default (a : Action) (context : Context) :
  match validate_action get_policy_engine a context with
  | Report true _ _ _ a' => accepted context a = true /\ a' = rewritten context a
  | _ => accepted context a = false
  end.
Proof.
  unfold validate_action, accepted, deferred, blocked, rewritten.
  rewrite <- (safety_results_passed get_policy_engine context).
  generalize (map (run_safety_check context) (safety_checks get_policy_engine)).
  intros sr.
  change (policies get_policy_engine) with
    [energy_threshold; cooling_during_peak; conflicting_barriers;
     emergency_override; aqi_cooling_conflict].
  cbn [policy_loop].
  generalize (condition energy_threshold context a) as c1.
  generalize (condition cooling_during_peak context a) as c2.
  generalize (condition conflicting_barriers context a) as c3.
  generalize (condition emergency_override context a) as c4.
  generalize (condition aqi_cooling_conflict context a) as c5.
  intros c5 c4 c3 c2 c1.
  cbn [effect modification energy_threshold cooling_during_peak
       conflicting_barriers emergency_override aqi_cooling_conflict].
  destruct c1, c2, c3, c4, c5; cbn [length app Nat.eqb andb orb negb];
    destruct (forallb passed sr); auto.
Qed.

Lemma is_valid_default (a : Action) (context : Context) :
  is_valid (validate_action get_policy_engine a context) = accepted context a.
Proof.
  pose proof (validate_action_default a context) as H.
  destruct (validate_action get_policy_engine a context) as [r|[] vi mo sa a'];
    simpl; [done| |done]. by destruct H.
Qed.

Lemma validated_actions_default (l : list Action) (context : Context) :
  validated_actions get_policy_engine l context =
  map (rewritten context) (List.filter (accepted context) l).
Proof.
  induction l as [|a l IH]; simpl; [done|].
  pose proof (validate_action_default a context) as H.
  destruct (validate_action get_policy_engine a context) as [r|[] vi mo sa a'].
  - by rewrite H.
  - destruct H as [-> ->]. simpl. by rewrite IH.
  - by rewrite H.
Qed.

Lemma validated_actions_length (self : PolicyEngine) (l : list Action)
    (context : Context) :
  (length (validated_actions self l context) <= length l)%nat.
Proof.
  induction l as [|a l IH]; simpl; [done|].
  destruct (validate_action self a context) as [r|[] vi mo sa a']; simpl; lia.
Qed.

(** The three stages in their fixed order; the last one changes nothing. *)
Lemma resolve_conflicts_stages (self : PolicyEngine) (l : list Action)
    (context : Context) :
  resolve_conflicts self l context =
  _resolve_zone_conflict
    (_resolve_energy_conflict (validated_actions self l context) context) context.
Proof.
  unfold resolve_conflicts, _initialize_conflict_rules. simpl.
  apply resolve_action_conflict_id.
Qed.

(** ** Provenance through the stages *)

Lemma submseteq_Forall2_pullback {A B : Type} (R : A -> B -> Prop)
    (o' v : list B) :
  o' ⊆+ v -> forall xs, Forall2 R xs v ->
  exists o, o ⊆+ xs /\ Forall2 R o o'.
Proof.
  induction 1 as [|x l1 l2 Hsub IH|x y l|x l1 l2 Hsub IH|l1 l2 l3 H1 IH1 H2 IH2];
    intros xs HF.
  - exists xs. split; [done|]. done.
  - apply Forall2_cons_inv_r in HF as (a & xs' & Ha & HF & ->).
    destruct (IH _ HF) as (o & Ho & HFo).
    exists (a :: o). split; [by apply submseteq_skip|by constructor].
  - apply Forall2_cons_inv_r in HF as (a & xs' & Ha & HF & ->).
    apply Forall2_cons_inv_r in HF as (b & xs'' & Hb & HF & ->).
    exists (b :: a :: xs''). split; [apply submseteq_swap|].
    by repeat constructor.
  - apply Forall2_cons_inv_r in HF as (a & xs' & Ha & HF & ->).
    destruct (IH _ HF) as (o & Ho & HFo).
    exists o. split; [by apply submseteq_cons|done].
  - destruct (IH2 _ HF) as (o2 & Ho2 & HF2).
    destruct (IH1 _ HF2) as (o1 & Ho1 & HF1).
    exists o1. split; [by etransitivity|done].
Qed.

Lemma resolve_energy_origin (l : list Action) (context : Context) :
  exists origins,
    origins ⊆+ l /\
    Forall2 kept_or_clipped origins (_resolve_energy_conflict l context).
Proof.
  unfold _resolve_energy_conflict.
  destruct (total_impact l <=? available_capacity context).
  - exists l. split; [done|]. apply Forall_Forall2_diag, Forall_forall.
    intros a _. by left.
  - destruct (energy_loop_origin (available_capacity context)
                (sorted priority_key l) 0) as (o & Ho & HF).
    exists o. split; [|done].
    rewrite <- (sorted_perm priority_key l). by apply sublist_submseteq.
Qed.

(** What the conflict resolver returns comes from its input, each input
    action used at most once, kept as it is or with its scope reduced. *)
Lemma stages_origin (v : list Action) (context : Context) :
  exists origins,
    origins ⊆+ v /\
    Forall2 kept_or_clipped origins
      (_resolve_zone_conflict (_resolve_energy_conflict v context) context).
Proof.
  destruct (resolve_energy_origin v context) as (o & Ho & HF).
  destruct (submseteq_Forall2_pullback _ _ _
              (resolve_zone_submseteq (_resolve_energy_conflict v context) context)
              _ HF) as (o' & Ho' & HF').
  exists o'. split; [by etransitivity|done].
Qed.

Lemma filter_submseteq_list {A : Type} (f : A -> bool) (l : list A) :
  List.filter f l ⊆+ l.
Proof.
  induction l as [|x l IH]; simpl; [done|].
  destruct (f x); [by apply submseteq_skip|by apply submseteq_cons].
Qed.

Lemma Forall2_compose {A B C : Type} (R1 : A -> B -> Prop) (R2 : B -> C -> Prop)
    (xs : list A) (ys : list B) (zs : list C) :
  Forall2 R1 xs ys -> Forall2 R2 ys zs ->
  Forall2 (fun x z => exists y, R1 x y /\ R2 y z) xs zs.
Proof.
  intros H. revert zs. induction H as [|x y xs ys Hxy H IH]; intros zs Hz.
  - inversion Hz. constructor.
  - inversion Hz as [|? z ? zs' Hyz Hz']; subst.
    constructor; [by exists y|by apply IH].
Qed.

Lemma resolve_conflicts_length (self : PolicyEngine) (l : list Action)
    (context : Context) :
  (length (resolve_conflicts self l context) <= length l)%nat.
Proof.
  rewrite resolve_conflicts_stages.
  destruct (stages_origin (validated_actions self l context) context)
    as (o & Ho & HF).
  rewrite <- (Forall2_length _ _ _ HF).
  etransitivity; [by apply submseteq_length|].
  apply validated_actions_length.
Qed.

Lemma simple_resolve_length (l : list Action) (context : Context) :
  (length (_simple_resolve l context) <= length l)%nat.
Proof.
  unfold _simple_resolve. rewrite <- (sorted_length priority_key l).
  generalize (sorted priority_key l) (@nil string).
  intros s. induction s as [|a s IH]; intros seen; simpl; [done|].
  destruct (negb _); simpl.
  - specialize (IH (action_key a :: seen)). lia.
  - specialize (IH seen). lia.
Qed.

(** ** Frame of resolution *)

Lemma rewritten_clipped_frame (context : Context) (a m b : Action) :
  m = rewritten context a -> kept_or_clipped m b -> frame context a b.
Proof.
  intros -> Hb. unfold rewritten in Hb. unfold frame.
  destruct (condition aqi_cooling_conflict context a);
    destruct Hb as [->|(Hp & v & Hv & ->)];
    cbn [reduce_scope air_filter_modification action_name priority zones
         energy_impact_mw reason scope_reduced extras] in *;
    (split; [done|split; [done|split; [done|split]]]).
  - right. by repeat split.
  - by left.
  - right. by repeat split.
  - right. split; [done|]. split; [done|]. by exists v.
  - left. by split.
  - by left.
  - left. by split.
  - right. split; [done|]. split; [done|]. by exists v.
Qed.

(** C10. Every action returned by [resolve_conflicts] comes from one input
    candidate, each candidate being used at most once (the origins form a
    sub-multiset of the input); it is that candidate unchanged except that
    the aqi_cooling_conflict policy may rewrite its name and reason and the
    capacity stage may, for a CRITICAL action, lower its impact and set
    [scope_reduced]; the output is never longer than the input and
    [conflicts_detected] is never negative. *)
Theorem C10_resolution_provenance (actions : list Action) (context : Context) :
  let out := resolve_conflicts get_policy_engine actions context in
  (exists origins, origins ⊆+ actions /\ Forall2 (frame context) origins out) /\
  (length out <= length actions)%nat /\
  (forall self city_ w,
     match orchestrate self city_ (Some get_policy_engine) w with
     | inr r => 0 <= conflicts_detected r
     | inl _ => True
     end).
Proof.
  intros out. split; [|split].
  - subst out. rewrite resolve_conflicts_stages, validated_actions_default.
    set (cands := List.filter (accepted context) actions).
    destruct (stages_origin (map (rewritten context) cands) context)
      as (o & Ho & HF).
    assert (Forall2 (fun a m => m = rewritten context a) cands
                    (map (rewritten context) cands)) as Hmap.
    { apply Forall2_fmap_r, Forall_Forall2_diag, Forall_forall. done. }
    destruct (submseteq_Forall2_pullback _ _ _ Ho _ Hmap) as (o' & Ho' & HF').
    exists o'. split.
    + etransitivity; [exact Ho'|apply filter_submseteq_list].
    + eapply Forall2_impl; [exact (Forall2_compose _ _ _ _ _ HF' HF)|].
      intros a b (m & Hm & Hb). by eapply rewritten_clipped_frame.
  - apply resolve_conflicts_length.
  - intros self city_ w. unfold orchestrate.
    destruct (analyze_loop _ _) as [e|[analyses all_actions]]; [done|].
    simpl.
    pose proof (resolve_conflicts_length get_policy_engine all_actions
                  (build_context w)).
    lia.
Qed.

(** ** Override precedence *)

(** C1. The registered ALLOW policy (emergency_override) matches a CRITICAL
    cooling action at load 5800, and [validate_action] still returns the
    deferral of cooling_during_peak; it also matches a CRITICAL
    LOWER_COASTAL_BARRIERS while a raise is pending, and the BLOCK of
    conflicting_barriers still makes the result invalid. *)
Theorem C1_allow_does_not_override :
  let cooling := simple_action "ACTIVATE_ALL_COOLING" "CRITICAL" "All hotspot zones" 300 in
  let lower := simple_action "LOWER_COASTAL_BARRIERS" "CRITICAL" "Coastal zones" 0 in
  let raise := simple_action "RAISE_COASTAL_BARRIERS" "CRITICAL" "Coastal zones" 200 in
  let peak := context_with_load 5800 in
  let pending :=
    {| temperature := None; flood_risk := None; aqi := None;
       energy_load := Some 5800;
       temp_forecast := None; flood_forecast := None;
       temp_anomalies := None; rainfall_anomalies := None;
       system_health := None; sensor_connectivity := None;
       pending_actions := Some [raise] |} in
  effect emergency_override = ALLOW /\
  condition emergency_override peak cooling = true /\
  validate_action get_policy_engine cooling peak =
    Deferred "Peak energy load - defer cooling to avoid grid overload" /\
  condition emergency_override pending lower = true /\
  is_valid (validate_action get_policy_engine lower pending) = false.
Proof. vm_compute. repeat split; reflexivity. Qed.

(** ** Pair exclusivity *)

(** C2. With RAISE_COASTAL_BARRIERS (CRITICAL) and LOWER_COASTAL_BARRIERS
    (LOW) both validated, the action-pair stage and [resolve_conflicts]
    return both members of the registered pair. *)
Theorem C2_pair_stage_keeps_both :
  let raise := simple_action "RAISE_COASTAL_BARRIERS" "CRITICAL" "Coastal zones" 200 in
  let lower := simple_action "LOWER_COASTAL_BARRIERS" "LOW" "Harbour" 0 in
  let context := context_with_load 5000 in
  _resolve_action_conflict [raise; lower] context = [raise; lower] /\
  _resolve_action_conflict [lower; raise] context = [lower; raise] /\
  resolve_conflicts get_policy_engine [raise; lower] context = [raise; lower].
Proof. vm_compute. repeat split; reflexivity. Qed.

(** ** Capacity invariant *)

(** At load 7000 the available capacity is negative; nothing is validated,
    the stage returns the empty list, and its sum 0 is above -1000. *)
Lemma C3_counterexample : ~ capacity_claim [] (context_with_load 7000).
Proof.
  unfold capacity_claim. intros [H|(a & b & Ha & _)].
  - vm_compute in H. by apply H.
  - inversion Ha.
Qed.

(** C3 (amended). Whenever the load does not exceed the capacity, the sum
    of the impacts returned by the capacity stage is within the available
    capacity, with no exception.  When the total impact of the candidates
    is within the available capacity the list is returned unchanged:
    nothing is clipped, even if one CRITICAL action alone exceeds the
    available capacity.  When the total exceeds the available capacity and
    the first action of the sorted order that does not fit is CRITICAL,
    the result is the accepted prefix followed by that action with
    [energy_impact_mw] set to the remaining capacity and [scope_reduced]
    set, so that the sum is exactly the available capacity. *)
Theorem C3_capacity_bound (actions : list Action) (context : Context) :
  0 <= available_capacity context ->
  let available := available_capacity context in
  let out := _resolve_energy_conflict actions context in
  total_impact out <= available /\
  (total_impact actions <= available -> out = actions) /\
  (forall pre a post,
     available < total_impact actions ->
     sorted priority_key actions = pre ++ a :: post ->
     all_fit available pre 0 ->
     available < total_impact pre + impact a ->
     priority a = Some "CRITICAL" ->
     out = pre ++ [reduce_scope a (available - total_impact pre)] /\
     total_impact out = available).
Proof.
  intros Hav available out. subst out available. unfold _resolve_energy_conflict.
  destruct (Z.leb_spec (total_impact actions) (available_capacity context))
    as [Hle|Hgt].
  - split; [done|]. split; [done|]. intros; lia.
  - split; [|split].
    + pose proof (energy_loop_total (available_capacity context)
                    (sorted priority_key actions) 0 Hav). lia.
    + intros ?. lia.
    + intros pre a post _ Hs Hfit Hover Hcrit.
      rewrite Hs, energy_loop_fit by done. simpl. rewrite !Z.add_0_l.
      destruct (Z.leb_spec (total_impact pre + impact a)
                           (available_capacity context)); [lia|].
      apply get_eq_true in Hcrit. rewrite Hcrit. split; [done|].
      rewrite total_impact_app. unfold total_impact at 2, impact at 1. simpl. lia.
Qed.

(** Two runs with 500 and 200 MW available: candidates
    [CRITICAL/300, CRITICAL/250, HIGH/150] are cut at the second action;
    [CRITICAL/250, CRITICAL/-200] pass unchanged although 250 exceeds 200. *)
Lemma C3_capacity_bound_witness :
  let c300 := simple_action "ACTIVATE_ALL_COOLING" "CRITICAL" "All hotspot zones" 300 in
  let c250 := simple_action "ACTIVATE_ALL_AIR_PURIFIERS" "CRITICAL" "All zones" 250 in
  let h150 := simple_action "ACTIVATE_PRIORITY_PURIFIERS" "HIGH" "High-traffic zones" 150 in
  let shed := simple_action "REDUCE_NON_CRITICAL_LOAD" "CRITICAL" "All zones" (-200) in
  let out := _resolve_energy_conflict [c300; c250; h150] (context_with_load 5500) in
  (total_impact out <= 500 /\
   out = [c300; reduce_scope c250 200] /\ total_impact out = 500) /\
  _resolve_energy_conflict [c250; shed] (context_with_load 5800) = [c250; shed].
Proof.
  intros c300 c250 h150 shed out.
  assert (0 <= available_capacity (context_with_load 5500)) as Hav
    by (vm_compute; discriminate).
  assert (0 <= available_capacity (context_with_load 5800)) as Hav'
    by (vm_compute; discriminate).
  split.
  - destruct (C3_capacity_bound [c300; c250; h150] (context_with_load 5500) Hav)
      as (Hsum & _ & Hclip).
    split; [exact Hsum|].
    apply (Hclip [c300] c250 [h150]).
    + vm_compute. reflexivity.
    + reflexivity.
    + simpl. split; [vm_compute; discriminate|exact I].
    + vm_compute. reflexivity.
    + reflexivity.
  - destruct (C3_capacity_bound [c250; shed] (context_with_load 5800) Hav')
      as (_ & Hpass & _).
    apply Hpass. vm_compute. discriminate.
Defined.

(** ** Overflow by a non-CRITICAL action *)

(** With 500 MW available, HIGH/600 does not fit and is skipped, and the
    MEDIUM/100 after it is accepted. *)
Lemma C4_counterexample :
  let h600 := simple_action "ACTIVATE_PRIORITY_COOLING" "HIGH" "High-priority zones" 600 in
  let m100 := simple_action "PREPARE_BARRIERS" "MEDIUM" "Coastal zones" 100 in
  _resolve_energy_conflict [h600; m100] (context_with_load 5500) = [m100] /\
  ~ drop_rest_claim [h600; m100] (context_with_load 5500) [] h600 [m100].
Proof.
  intros h600 m100. split; [reflexivity|].
  unfold drop_rest_claim. intros H.
  assert (_resolve_energy_conflict [h600; m100] (context_with_load 5500) = [])
    as Hnil.
  { apply H.
    - vm_compute. reflexivity.
    - reflexivity.
    - exact I.
    - vm_compute. reflexivity.
    - discriminate. }
  discriminate Hnil.
Qed.

Lemma energy_loop_accept_fitting (available : Z) (l : list Action) (cum : Z) :
  Forall (fun a => get_eq (priority a) "CRITICAL" = false) l ->
  energy_loop available l cum = accept_fitting available l cum.
Proof.
  intros Hl. revert cum.
  induction Hl as [|a l Ha _ IH]; intros cum; cbn [energy_loop accept_fitting];
    [done|].
  rewrite Ha, !IH. done.
Qed.

Lemma accept_fitting_sublist (available : Z) (l : list Action) (cum : Z) :
  accept_fitting available l cum `sublist_of` l.
Proof.
  revert cum. induction l as [|a l IH]; intros cum; cbn [accept_fitting]; [done|].
  destruct (_ <=? _); [by apply sublist_skip|by apply sublist_cons].
Qed.

Lemma accept_fitting_app (available : Z) (p1 p2 : list Action) (cum : Z) :
  accept_fitting available (p1 ++ p2) cum =
  accept_fitting available p1 cum ++
  accept_fitting available p2
    (cum + total_impact (accept_fitting available p1 cum)).
Proof.
  revert cum. induction p1 as [|a p1 IH]; intros cum; cbn [app accept_fitting].
  - change (total_impact []) with 0. by rewrite Z.add_0_r.
  - destruct (_ <=? _).
    + rewrite IH. cbn [app].
      change (total_impact (a :: ?k)) with (impact a + total_impact k).
      by rewrite Z.add_assoc.
    + apply IH.
Qed.

(** C4 (amended). When the first action of the sorted order that does not
    fit is not CRITICAL, that action alone is dropped, without clipping;
    the loop goes on with the running total unchanged, and every later
    action of the sorted order is returned, unchanged and in its place,
    exactly when it fits the capacity left by the actions accepted before
    it, and is skipped otherwise. *)
Theorem C4_non_critical_overflow (actions : list Action) (context : Context)
    (pre : list Action) (a : Action) (post : list Action) :
  let available := available_capacity context in
  let out := _resolve_energy_conflict actions context in
  available < total_impact actions ->
  sorted priority_key actions = pre ++ a :: post ->
  all_fit available pre 0 ->
  available < total_impact pre + impact a ->
  priority a <> Some "CRITICAL" ->
  out = pre ++ accept_fitting available post (total_impact pre) /\
  (forall p1 b p2, post = p1 ++ b :: p2 ->
     exists k1 k2,
       k1 `sublist_of` p1 /\ k2 `sublist_of` p2 /\
       out = pre ++ k1 ++
             (if total_impact pre + total_impact k1 + impact b <=? available
              then [b] else []) ++ k2).
Proof.
  intros available out Hgt Hs Hfit Hover Hcrit. subst out available.
  apply get_eq_false in Hcrit.
  assert (_resolve_energy_conflict actions context =
          pre ++ accept_fitting (available_capacity context) post
                   (total_impact pre)) as Hout.
  { unfold _resolve_energy_conflict.
    destruct (Z.leb_spec (total_impact actions) (available_capacity context));
      [lia|].
    rewrite Hs, energy_loop_fit by done. simpl. rewrite !Z.add_0_l.
    destruct (Z.leb_spec (total_impact pre + impact a)
                         (available_capacity context)); [lia|].
    rewrite Hcrit. f_equal. apply energy_loop_accept_fitting.
    by eapply sorted_after_non_critical. }
  split; [exact Hout|].
  intros p1 b p2 ->. rewrite Hout, accept_fitting_app. cbn [accept_fitting].
  set (k1 := accept_fitting (available_capacity context) p1 (total_impact pre)).
  exists k1.
  destruct (total_impact pre + total_impact k1 + impact b
            <=? available_capacity context).
  - exists (accept_fitting (available_capacity context) p2
              (total_impact pre + total_impact k1 + impact b)).
    split; [apply accept_fitting_sublist|].
    split; [apply accept_fitting_sublist|done].
  - exists (accept_fitting (available_capacity context) p2
              (total_impact pre + total_impact k1)).
    split; [apply accept_fitting_sublist|].
    split; [apply accept_fitting_sublist|done].
Qed.

(** With 500 MW available, HIGH/600 is skipped, MEDIUM/100 and LOW/100
    after it are accepted, LOW/450 between them is skipped. *)
Lemma C4_non_critical_overflow_witness :
  let h600 := simple_action "ACTIVATE_PRIORITY_COOLING" "HIGH" "High-priority zones" 600 in
  let m100 := simple_action "PREPARE_BARRIERS" "MEDIUM" "Coastal zones" 100 in
  let l450 := simple_action "ACTIVATE_PRIORITY_PURIFIERS" "LOW" "High-traffic zones" 450 in
  let l100 := simple_action "OPTIMIZE_ENERGY_USAGE" "LOW" "All zones" 100 in
  _resolve_energy_conflict [h600; m100; l450; l100] (context_with_load 5500)
  = [m100; l100].
Proof.
  intros h600 m100 l450 l100.
  destruct (C4_non_critical_overflow [h600; m100; l450; l100]
              (context_with_load 5500) [] h600 [m100; l450; l100]) as [H _].
  - vm_compute. reflexivity.
  - reflexivity.
  - exact I.
  - vm_compute. reflexivity.
  - discriminate.
  - exact H.
Defined.

(** ** Heat thresholds *)

(** At exactly 38 the agent answers High, at exactly 32 Low. *)
Lemma C9_counterexample :
  risk_level (HeatAgent_analyze sample_numerics (context_with_temperature (38 # 1))) = "High" /\
  risk_level (HeatAgent_analyze sample_numerics (context_with_temperature (32 # 1))) = "Low" /\
  ~ heat_claim sample_numerics (context_with_temperature (38 # 1)) /\
  ~ heat_claim sample_numerics (context_with_temperature (32 # 1)).
Proof.
  split; [reflexivity|]. split; [reflexivity|].
  split; intros H; specialize (H eq_refl); vm_compute in H; discriminate H.
Qed.

(** C9 (amended). Without a forecast, HeatAgent.analyze derives the risk
    level from the temperature with strict comparisons: at most 32 is Low,
    above 32 up to 35 is Medium, above 35 up to 38 is High, above 38 is
    Critical; so exactly 38 is High and exactly 32 is Low. *)
Theorem C9_heat_thresholds (num : Numerics) (context : Context) :
  temp_forecast context = None ->
  let temp := default (30 # 1)%Q (temperature context) in
  let risk := risk_level (HeatAgent_analyze num context) in
  ((temp <= 32 # 1)%Q -> risk = "Low") /\
  ((32 # 1 < temp)%Q -> (temp <= 35 # 1)%Q -> risk = "Medium") /\
  ((35 # 1 < temp)%Q -> (temp <= 38 # 1)%Q -> risk = "High") /\
  ((38 # 1 < temp)%Q -> risk = "Critical").
Proof.
  intros Hf temp risk. subst risk.
  cbn [risk_level HeatAgent_analyze]. unfold HeatAgent_risk_level.
  rewrite Hf. fold temp. rewrite !orb_false_r.
  destruct (Qltb (38 # 1) temp) eqn:H38.
  { apply Qltb_lt in H38. repeat split; intros; try done.
    - exfalso. apply (Qlt_irrefl (38 # 1)). eapply Qlt_le_trans; [exact H38|].
      eapply Qle_trans; [eassumption|]. by vm_compute.
    - exfalso. apply (Qlt_irrefl (38 # 1)). eapply Qlt_le_trans; [exact H38|].
      eapply Qle_trans; [eassumption|]. by vm_compute.
    - exfalso. apply (Qlt_irrefl (38 # 1)). eapply Qlt_le_trans; eassumption. }
  apply Qltb_ge in H38.
  destruct (Qltb (35 # 1) temp) eqn:H35.
  { apply Qltb_lt in H35. repeat split; intros; try done.
    - exfalso. apply (Qlt_irrefl (35 # 1)). eapply Qlt_le_trans; [exact H35|].
      eapply Qle_trans; [eassumption|]. by vm_compute.
    - exfalso. apply (Qlt_irrefl (35 # 1)). eapply Qlt_le_trans; eassumption.
    - exfalso. apply (Qlt_irrefl (38 # 1)). eapply Qlt_le_trans; eassumption. }
  apply Qltb_ge in H35.
  destruct (Qltb (32 # 1) temp) eqn:H32.
  { apply Qltb_lt in H32. repeat split; intros; try done.
    - exfalso. apply (Qlt_irrefl (32 # 1)). eapply Qlt_le_trans; eassumption.
    - exfalso. apply (Qlt_irrefl (35 # 1)). eapply Qlt_le_trans; eassumption.
    - exfalso. apply (Qlt_irrefl (38 # 1)). eapply Qlt_le_trans; eassumption. }
  apply Qltb_ge in H32.
  repeat split; intros; try done.
  - exfalso. apply (Qlt_irrefl (32 # 1)). eapply Qlt_le_trans; eassumption.
  - exfalso. apply (Qlt_irrefl (35 # 1)). eapply Qlt_le_trans; eassumption.
  - exfalso. apply (Qlt_irrefl (38 # 1)). eapply Qlt_le_trans; eassumption.
Qed.

Lemma C9_heat_thresholds_witness :
  risk_level (HeatAgent_analyze sample_numerics (context_with_temperature (38 # 1))) = "High" /\
  risk_level (HeatAgent_analyze sample_numerics (context_with_temperature (32 # 1))) = "Low".
Proof.
  split.
  - apply (C9_heat_thresholds sample_numerics (context_with_temperature (38 # 1))
             eq_refl).
    + vm_compute. reflexivity.
    + vm_compute. discriminate.
  - apply (C9_heat_thresholds sample_numerics (context_with_temperature (32 # 1))
             eq_refl).
    vm_compute. discriminate.
Defined.

(** ** Global safety checks *)

Lemma safety_failure_not_safe (context : Context) :
  safety_failure context <-> all_safe get_policy_engine context = false.
Proof.
  unfold safety_failure, all_safe.
  cbn [safety_checks get_policy_engine _initialize_safety_checks forallb check].
  rewrite andb_true_r, !andb_false_iff, Z.ltb_ge, Qltb_ge.
  assert (String.eqb (default "operational" (system_health context)) "operational"
          = false <->
          default "operational" (system_health context) <> "operational") as ->.
  { destruct (String.eqb_spec (default "operational" (system_health context))
                "operational"); split; congruence. }
  tauto.
Qed.

Lemma validated_actions_unsafe (l : list Action) (context : Context) :
  all_safe get_policy_engine context = false ->
  validated_actions get_policy_engine l context = [].
Proof.
  intros H. rewrite validated_actions_default.
  induction l as [|a l IH]; simpl; [done|].
  unfold accepted at 1. by rewrite H, andb_false_r.
Qed.

Lemma resolve_energy_nil (context : Context) :
  _resolve_energy_conflict [] context = [].
Proof. unfold _resolve_energy_conflict. by destruct (_ <=? _). Qed.

Lemma resolve_conflicts_nil (self : PolicyEngine) (l : list Action)
    (context : Context) :
  validated_actions self l context = [] -> resolve_conflicts self l context = [].
Proof.
  intros H. by rewrite resolve_conflicts_stages, H, resolve_energy_nil.
Qed.

Lemma get_safety_checks_report (self : PolicyEngine) (a : Action)
    (context : Context) (sr : list SafetyResult) :
  get_safety_checks (validate_action self a context) = Some sr ->
  sr = map (run_safety_check context) (safety_checks self).
Proof.
  unfold validate_action.
  destruct (policy_loop context (policies self) a [] []) as [r|[[a' vi] mo]];
    simpl; congruence.
Qed.

(** At load 6000 a cooling action is deferred by cooling_during_peak: the
    early return carries no safety results. *)
Lemma C7_counterexample :
  let cooling := simple_action "ACTIVATE_COOLING" "LOW" "All hotspot zones" 150 in
  let full := context_with_load 6000 in
  safety_failure full /\
  get_safety_checks (validate_action get_policy_engine cooling full) = None /\
  ~ safety_claim cooling full.
Proof.
  intros cooling full.
  assert (safety_failure full) as Hf by (left; vm_compute; discriminate).
  split; [exact Hf|]. split; [reflexivity|].
  intros H. destruct (H Hf) as (_ & sr & Hsr & _). discriminate Hsr.
Qed.

Lemma validate_action_deferral (a : Action) (context : Context) :
  (condition cooling_during_peak context a = true ->
   validate_action get_policy_engine a context =
   Deferred "Peak energy load - defer cooling to avoid grid overload") /\
  (condition cooling_during_peak context a = false ->
   get_safety_checks (validate_action get_policy_engine a context) =
   Some (map (run_safety_check context) _initialize_safety_checks)).
Proof.
  unfold validate_action.
  change (safety_checks get_policy_engine) with _initialize_safety_checks.
  generalize (map (run_safety_check context) _initialize_safety_checks).
  intros sr.
  change (policies get_policy_engine) with
    [energy_threshold; cooling_during_peak; conflicting_barriers;
     emergency_override; aqi_cooling_conflict].
  cbn [policy_loop].
  generalize (condition energy_threshold context a) as c1.
  generalize (condition cooling_during_peak context a) as c2.
  generalize (condition conflicting_barriers context a) as c3.
  generalize (condition emergency_override context a) as c4.
  generalize (condition aqi_cooling_conflict context a) as c5.
  intros c5 c4 c3 c2 c1.
  cbn [effect modification policy_reason energy_threshold cooling_during_peak
       conflicting_barriers emergency_override aqi_cooling_conflict
       default from_option id].
  destruct c1, c2, c3, c4, c5; cbn [get_safety_checks]; split; intros H;
    first [discriminate H | reflexivity].
Qed.

(** C7 (amended). If a global safety check fails (energy_load at or above
    6000, system_health other than operational, or sensor_connectivity at
    most 0.8), [validate_action] returns valid = false for every action.
    When the DEFER policy cooling_during_peak matches the action, the
    result is the early deferral, which carries the deferral reason and no
    safety results; otherwise the result carries the results of all
    registered checks, every failing check is listed as failed, and at
    least one is.  [resolve_conflicts] returns the empty list for every
    input. *)
Theorem C7_safety_failure_invalidates (context : Context) :
  safety_failure context ->
  forall (a : Action) (l : list Action),
    let v := validate_action get_policy_engine a context in
    is_valid v = false /\
    (condition cooling_during_peak context a = true ->
     v = Deferred "Peak energy load - defer cooling to avoid grid overload" /\
     get_safety_checks v = None) /\
    (condition cooling_during_peak context a = false ->
     exists sr,
       get_safety_checks v = Some sr /\
       sr = map (run_safety_check context) _initialize_safety_checks /\
       (exists r, r ∈ sr /\ passed r = false) /\
       (forall c, c ∈ _initialize_safety_checks -> check c context = false ->
          mkSafetyResult (check_id c) false
            ("Safety check failed: " +:+ check_id c) ∈ sr)) /\
    resolve_conflicts get_policy_engine l context = [].
Proof.
  intros Hf a l v. apply safety_failure_not_safe in Hf.
  destruct (validate_action_deferral a context) as [Hdefer Hreport].
  split; [|split; [|split]].
  - subst v. rewrite is_valid_default. unfold accepted.
    by rewrite Hf, andb_false_r.
  - intros Hc. subst v. by rewrite (Hdefer Hc).
  - intros Hc. exists (map (run_safety_check context) _initialize_safety_checks).
    split; [by apply Hreport|]. split; [done|].
    assert (forall c, c ∈ _initialize_safety_checks -> check c context = false ->
              mkSafetyResult (check_id c) false
                ("Safety check failed: " +:+ check_id c) ∈
              map (run_safety_check context) _initialize_safety_checks)
      as Hlisted.
    { intros c Hin Hfail. apply list_elem_of_fmap.
      exists c. split; [|done]. unfold run_safety_check. by rewrite Hfail. }
    split; [|done].
    unfold all_safe in Hf.
    change (safety_checks get_policy_engine)
      with _initialize_safety_checks in Hf.
    destruct (forallb_forall (fun c => check c context) _initialize_safety_checks)
      as [_ Hall].
    destruct (existsb (fun c => negb (check c context)) _initialize_safety_checks)
      eqn:Hex.
    + apply existsb_exists in Hex as (c & Hin & Hneg).
      apply negb_true_iff in Hneg. apply list_elem_of_In in Hin.
      eexists. split; [by apply Hlisted|done].
    + exfalso. rewrite Hall in Hf; [discriminate|].
      intros c Hin. destruct (check c context) eqn:Hcc; [done|].
      assert (existsb (fun c => negb (check c context)) _initialize_safety_checks
              = true) as Hex'.
      { apply existsb_exists. exists c. by rewrite Hcc. }
      congruence.
  - apply resolve_conflicts_nil. by apply validated_actions_unsafe.
Qed.

(** At load 6100: a purifier action gets the report with the failed
    energy check listed, a cooling action gets the bare deferral. *)
Lemma C7_safety_failure_invalidates_witness :
  let purify := simple_action "ACTIVATE_ALL_AIR_PURIFIERS" "CRITICAL" "All zones" 250 in
  let cooling := simple_action "ACTIVATE_COOLING" "LOW" "All hotspot zones" 150 in
  let full := context_with_load 6100 in
  (is_valid (validate_action get_policy_engine purify full) = false /\
   mkSafetyResult "energy_capacity" false "Safety check failed: energy_capacity"
     ∈ default [] (get_safety_checks (validate_action get_policy_engine purify full)) /\
   resolve_conflicts get_policy_engine [purify] full = []) /\
  get_safety_checks (validate_action get_policy_engine cooling full) = None.
Proof.
  intros purify cooling full.
  assert (safety_failure full) as Hf by (left; vm_compute; discriminate).
  split.
  - destruct (C7_safety_failure_invalidates full Hf purify [purify])
      as (Hv & _ & Hrep & Hr).
    split; [exact Hv|]. split; [|exact Hr].
    destruct (Hrep eq_refl) as (sr & -> & _ & _ & Hlisted).
    apply (Hlisted (mkSafetyCheck "energy_capacity"
                      (fun context => default 0 (energy_load context) <? 6000)
                      "Energy capacity check passed")).
    + left.
    + reflexivity.
  - destruct (C7_safety_failure_invalidates full Hf cooling [])
      as (_ & Hdef & _).
    by destruct (Hdef eq_refl).
Defined.

(** ** Agent failure *)

Lemma analyze_loop_raises (agents : list Agent) (context : Context)
    (a : Agent) (e : Exn) :
  a ∈ agents -> analyze a context = inl e ->
  exists e', analyze_loop agents context = inl e'.
Proof.
  intros Ha He. induction agents as [|b agents IH]; [by inversion Ha|].
  simpl. destruct (analyze b context) as [e'|an] eqn:Hb; [by exists e'|].
  apply elem_of_cons in Ha as [->|Ha]; [congruence|].
  destruct (IH Ha) as [e' ->]. by exists e'.
Qed.

(** A coordinator holding the heat agent and an agent that does not
    implement [analyze]: the run ends with the exception and there is no
    result, although the heat agent's own analysis succeeds. *)
Lemma C8_counterexample :
  let self := {| self_agents := [HeatAgent sample_numerics;
                                 base_Agent "Custom Agent" 5] |} in
  let w := sample_world "2026-01-01T00:00:00" in
  (exists an, analyze (HeatAgent sample_numerics) (build_context w) = inr an) /\
  orchestrate self "Mumbai" (Some get_policy_engine) w = inl NotImplementedError /\
  ~ exists r, orchestrate self "Mumbai" (Some get_policy_engine) w = inr r.
Proof.
  intros self w. split; [by eexists|].
  assert (orchestrate self "Mumbai" (Some get_policy_engine) w
          = inl NotImplementedError) as H by reflexivity.
  split; [exact H|]. intros [r Hr]. rewrite H in Hr. discriminate Hr.
Qed.

Lemma analyze_loop_raised_by (agents : list Agent) (context : Context)
    (e : Exn) :
  analyze_loop agents context = inl e ->
  exists pre b post,
    agents = pre ++ b :: post /\
    Forall (fun c => exists an, analyze c context = inr an) pre /\
    analyze b context = inl e.
Proof.
  induction agents as [|b agents IH]; cbn [analyze_loop]; [done|].
  destruct (analyze b context) as [e'|an] eqn:Hb.
  - intros [= <-]. by exists [], b, agents.
  - destruct (analyze_loop agents context) as [e'|[ans acts]]; [|done].
    intros [= <-]. destruct (IH eq_refl) as (pre & c & post & -> & Hpre & He).
    exists (b :: pre), c, post. split; [done|]. split; [|done].
    constructor; [by exists an|done].
Qed.

(** C8 (amended). If the [analyze] of an agent raises during
    [orchestrate], the exception is not caught: with or without a policy
    engine the run ends with the exception of the first agent, in the
    stable order of priorities, whose [analyze] raises, and produces no
    OrchestrationResult; in particular, when one agent alone raises, the
    run ends with that agent's exception.  No status is set to degraded:
    [orchestrate] assigns no status, and whenever it does produce a result
    every agent is reported with its own status. *)
Theorem C8_agent_failure_aborts (self : CoordinatorBrain) (city_ : string)
    (policy_engine : option PolicyEngine) (w : World) (a : Agent) (e : Exn) :
  a ∈ self_agents self ->
  analyze a (build_context w) = inl e ->
  (exists pre b post e',
     sorted agent_priority (self_agents self) = pre ++ b :: post /\
     Forall (fun c => exists an, analyze c (build_context w) = inr an) pre /\
     analyze b (build_context w) = inl e' /\
     orchestrate self city_ policy_engine w = inl e') /\
  ((forall b e', b ∈ self_agents self ->
                 analyze b (build_context w) = inl e' -> b = a) ->
   orchestrate self city_ policy_engine w = inl e) /\
  (forall w' r, orchestrate self city_ policy_engine w' = inr r ->
     map report_status (agents r) = map agent_status (self_agents self)).
Proof.
  intros Ha He.
  assert (exists pre b post e',
            sorted agent_priority (self_agents self) = pre ++ b :: post /\
            Forall (fun c => exists an, analyze c (build_context w) = inr an)
                   pre /\
            analyze b (build_context w) = inl e' /\
            orchestrate self city_ policy_engine w = inl e') as Habort.
  { unfold orchestrate.
    assert (a ∈ sorted agent_priority (self_agents self)) as Hs.
    { by rewrite sorted_perm. }
    destruct (analyze_loop_raises _ _ _ _ Hs He) as [e' Hloop].
    destruct (analyze_loop_raised_by _ _ _ Hloop)
      as (pre & b & post & Hsplit & Hpre & Hbe).
    exists pre, b, post, e'. by rewrite Hloop. }
  split; [exact Habort|]. split.
  - intros Honly. destruct Habort as (pre & b & post & e' & Hs & _ & Hbe & Hrun).
    assert (b ∈ self_agents self) as Hb.
    { rewrite <- (sorted_perm agent_priority), Hs.
      apply elem_of_app. right. by left. }
    rewrite (Honly b e' Hb Hbe) in Hbe. congruence.
  - intros w' r. unfold orchestrate.
    destruct (analyze_loop _ _) as [e'|[ans acts]]; [done|].
    intros [= <-]. cbn [agents]. by rewrite map_map.
Qed.

Lemma C8_agent_failure_aborts_witness :
  orchestrate {| self_agents := [HeatAgent sample_numerics;
                                 base_Agent "Custom Agent" 5] |}
              "Mumbai" None (sample_world "2026-01-01T00:00:00")
  = inl NotImplementedError.
Proof.
  destruct (C8_agent_failure_aborts
              {| self_agents := [HeatAgent sample_numerics;
                                 base_Agent "Custom Agent" 5] |}
              "Mumbai" None (sample_world "2026-01-01T00:00:00")
              (base_Agent "Custom Agent" 5) NotImplementedError)
    as (_ & Honly & _).
  - apply elem_of_cons. right. apply elem_of_cons. by left.
  - reflexivity.
  - apply Honly. intros b e' Hb Hbe.
    apply elem_of_cons in Hb as [->|Hb]; [discriminate Hbe|].
    apply elem_of_cons in Hb as [->|Hb]; [reflexivity|].
    inversion Hb.
Defined.

(** ** Determinism *)

(** Two calls with the same arguments and the same context, at two
    readings of the clock, return different results. *)
Lemma C6_counterexample :
  let self := CoordinatorBrain_init sample_numerics in
  let w1 := sample_world "2026-01-01T00:00:00" in
  let w2 := sample_world "2026-01-01T00:00:01" in
  build_context w1 = build_context w2 /\
  orchestrate self "Mumbai" (Some get_policy_engine) w1 <>
  orchestrate self "Mumbai" (Some get_policy_engine) w2.
Proof.
  intros self w1 w2. split; [reflexivity|].
  intros H.
  assert (timestamp <$> (match orchestrate self "Mumbai" (Some get_policy_engine) w1
                         with inr r => Some r | inl _ => None end) =
          timestamp <$> (match orchestrate self "Mumbai" (Some get_policy_engine) w2
                         with inr r => Some r | inl _ => None end)) as Ht
    by (by rewrite H).
  vm_compute in Ht. discriminate Ht.
Qed.

(** C6 (amended). [orchestrate] is deterministic up to the clock: its
    outcome is fixed by the context, the agents and the policy engine,
    whatever the order in which the set of conflicting pairs is iterated;
    two calls on the same context agree on the outcome and on every field
    of the result except [timestamp], which is the reading of the clock at
    the call. *)
Theorem C6_deterministic_up_to_timestamp (self : CoordinatorBrain)
    (city_ : string) (policy_engine : option PolicyEngine) (w1 w2 : World)
    (pairs1 pairs2 : list (string * string)) :
  build_context w1 = build_context w2 ->
  erase_timestamp (orchestrate_in_order pairs1 self city_ policy_engine w1) =
  erase_timestamp (orchestrate_in_order pairs2 self city_ policy_engine w2) /\
  orchestrate_in_order conflicts self city_ policy_engine w1 =
  orchestrate self city_ policy_engine w1 /\
  (forall r, orchestrate_in_order pairs1 self city_ policy_engine w1 = inr r ->
             timestamp r = now_isoformat w1).
Proof.
  intros H.
  assert (forall pairs pe l context,
            resolve_conflicts_in_order pairs pe l context =
            resolve_conflicts pe l context) as Hres.
  { intros pairs pe l context.
    unfold resolve_conflicts_in_order, resolve_conflicts,
      _initialize_conflict_rules, _resolve_action_conflict_in_order,
      _resolve_action_conflict.
    cbn [fold_left snd]. by rewrite !action_loop_id. }
  assert (forall pairs w,
            orchestrate_in_order pairs self city_ policy_engine w =
            orchestrate self city_ policy_engine w) as Horch.
  { intros pairs w. unfold orchestrate_in_order, orchestrate.
    destruct (analyze_loop _ _) as [e|[an acts]]; [done|].
    destruct policy_engine as [pe|]; [|done]. by rewrite Hres. }
  split; [|split].
  - rewrite !Horch. unfold orchestrate. rewrite H.
    by destruct (analyze_loop _ _) as [e|[an acts]].
  - apply Horch.
  - intros r. rewrite Horch. unfold orchestrate.
    destruct (analyze_loop _ _) as [e|[an acts]]; [done|].
    by intros [= <-].
Qed.

(** Two calls one second apart, the pairs visited in the two possible
    orders. *)
Lemma C6_deterministic_up_to_timestamp_witness :
  erase_timestamp
    (orchestrate_in_order
       [("RAISE_COASTAL_BARRIERS", "LOWER_COASTAL_BARRIERS");
        ("ACTIVATE_COOLING", "DEACTIVATE_COOLING")]
       (CoordinatorBrain_init sample_numerics) "Mumbai"
       (Some get_policy_engine) (sample_world "2026-01-01T00:00:00")) =
  erase_timestamp
    (orchestrate_in_order
       [("ACTIVATE_COOLING", "DEACTIVATE_COOLING");
        ("RAISE_COASTAL_BARRIERS", "LOWER_COASTAL_BARRIERS")]
       (CoordinatorBrain_init sample_numerics) "Mumbai"
       (Some get_policy_engine) (sample_world "2026-01-01T00:00:01")).
Proof.
  apply (C6_deterministic_up_to_timestamp
           (CoordinatorBrain_init sample_numerics) "Mumbai"
           (Some get_policy_engine)
           (sample_world "2026-01-01T00:00:00")
           (sample_world "2026-01-01T00:00:01")).
  reflexivity.
Defined.

(** ** Idempotence of resolution *)

(** Validity and the rewrite condition only look at the action name. *)
Lemma accepted_same_name (context : Context) (a b : Action) :
  action_name b = action_name a -> accepted context b = accepted context a.
Proof.
  intros H. unfold accepted, deferred, blocked.
  cbn [condition cooling_during_peak energy_threshold conflicting_barriers].
  by rewrite H.
Qed.

Lemma rewrite_condition_same_name (context : Context) (a b : Action) :
  action_name b = action_name a ->
  condition aqi_cooling_conflict context b = condition aqi_cooling_conflict context a.
Proof.
  intros H. cbn [condition aqi_cooling_conflict]. by rewrite H.
Qed.

Lemma kept_or_clipped_name (a b : Action) :
  kept_or_clipped a b -> action_name b = action_name a.
Proof. by intros [->|(_ & v & _ & ->)]. Qed.

Lemma stages_Forall (P : Action -> Prop) (v : list Action) (context : Context) :
  (forall a b, kept_or_clipped a b -> P a -> P b) ->
  Forall P v ->
  Forall P (_resolve_zone_conflict (_resolve_energy_conflict v context) context).
Proof.
  intros HP Hv. destruct (stages_origin v context) as (o & Ho & HF).
  assert (Forall P o) as Hpo.
  { rewrite Forall_forall in *. intros x Hx. apply Hv.
    by eapply elem_of_submseteq. }
  clear Ho. induction HF as [|a b o out Hab HF IH]; [constructor|].
  apply Forall_cons in Hpo as [Ha Hpo].
  constructor; [by eapply HP|by apply IH].
Qed.

Lemma filter_all {A : Type} (f : A -> bool) (l : list A) :
  Forall (fun x => f x = true) l -> List.filter f l = l.
Proof. induction 1 as [|x l Hx _ IH]; simpl; [done|]. by rewrite Hx, IH. Qed.

Lemma rewritten_none (context : Context) (l : list Action) :
  Forall (fun a => condition aqi_cooling_conflict context a = false) l ->
  map (rewritten context) l = l.
Proof.
  induction 1 as [|x l Hx _ IH]; simpl; [done|].
  unfold rewritten at 1. by rewrite Hx, IH.
Qed.

(** The energy check passing leaves capacity available. *)
Lemma all_safe_available (context : Context) :
  all_safe get_policy_engine context = true -> 0 <= available_capacity context.
Proof.
  unfold all_safe, available_capacity.
  cbn [safety_checks get_policy_engine _initialize_safety_checks forallb check].
  intros H. apply andb_true_iff in H as [H _]. apply Z.ltb_lt in H.
  destruct (energy_load context); simpl in *; lia.
Qed.

Lemma resolve_energy_total (l : list Action) (context : Context) :
  0 <= available_capacity context ->
  total_impact (_resolve_energy_conflict l context) <= available_capacity context.
Proof.
  intros Hav. unfold _resolve_energy_conflict.
  destruct (Z.leb_spec (total_impact l) (available_capacity context)); [done|].
  pose proof (energy_loop_total (available_capacity context)
                (sorted priority_key l) 0 Hav). lia.
Qed.

Lemma resolve_energy_nonneg (l : list Action) (context : Context) :
  0 <= available_capacity context -> nonneg_impacts l ->
  nonneg_impacts (_resolve_energy_conflict l context).
Proof.
  intros Hav Hl. unfold _resolve_energy_conflict.
  destruct (_ <=? _); [done|].
  apply energy_loop_nonneg; [done|].
  unfold nonneg_impacts. by rewrite sorted_perm.
Qed.

Lemma resolve_energy_fits (l : list Action) (context : Context) :
  total_impact l <= available_capacity context ->
  _resolve_energy_conflict l context = l.
Proof.
  intros H. unfold _resolve_energy_conflict.
  by destruct (Z.leb_spec (total_impact l) (available_capacity context)); [|lia].
Qed.

(** The rewrite of aqi_cooling_conflict appends to the reason at every
    pass, so a second resolution differs from the first. *)
Lemma C5_counterexample :
  let cooling := simple_action "ACTIVATE_ALL_COOLING" "CRITICAL" "All hotspot zones" 300 in
  let smog :=
    {| temperature := None; flood_risk := None; aqi := Some 250;
       energy_load := Some 4500;
       temp_forecast := None; flood_forecast := None;
       temp_anomalies := None; rainfall_anomalies := None;
       system_health := None; sensor_connectivity := None;
       pending_actions := None |} in
  let once := resolve_conflicts get_policy_engine [cooling] smog in
  map reason once = [Some "requested (with air filtration)"] /\
  map reason (resolve_conflicts get_policy_engine once smog) =
    [Some "requested (with air filtration) (with air filtration)"] /\
  resolve_conflicts get_policy_engine once smog <> once.
Proof.
  intros cooling smog once. split; [reflexivity|]. split; [reflexivity|].
  intros H. apply (f_equal (map reason)) in H. vm_compute in H. discriminate H.
Qed.

(** The hypothesis on impacts is needed as well: an overcommitted CRITICAL
    action passes the capacity stage next to a load reduction, the zone
    stage drops the reduction, and the second pass clips what is left. *)
Lemma idempotence_needs_nonneg_impacts :
  let purify := simple_action "ACTIVATE_ALL_AIR_PURIFIERS" "CRITICAL" "All zones" 700 in
  let shed := simple_action "REDUCE_NON_CRITICAL_LOAD" "HIGH" "All zones" (-300) in
  let context := context_with_load 5500 in
  resolve_conflicts get_policy_engine [purify; shed] context = [purify] /\
  resolve_conflicts get_policy_engine [purify] context = [reduce_scope purify 500].
Proof. vm_compute. split; reflexivity. Qed.

(** C5 (amended). Under a fixed context, when no input action matches the
    aqi_cooling_conflict MODIFY policy and no input action has a negative
    energy impact, resolving the list returned by [resolve_conflicts] a
    second time returns it unchanged. *)
Theorem C5_idempotent_without_rewrite (actions : list Action) (context : Context) :
  Forall (fun a => condition aqi_cooling_conflict context a = false) actions ->
  nonneg_impacts actions ->
  let out := resolve_conflicts get_policy_engine actions context in
  resolve_conflicts get_policy_engine out context = out.
Proof.
  intros Hmod Hnn out. subst out.
  set (good := fun a => accepted context a = true /\
                        condition aqi_cooling_conflict context a = false).
  set (v := List.filter (accepted context) actions).
  assert (validated_actions get_policy_engine actions context = v) as Hv.
  { rewrite validated_actions_default. apply rewritten_none.
    rewrite Forall_forall in *. intros a Ha. apply Hmod.
    apply list_elem_of_In in Ha. apply filter_In in Ha as [Ha _].
    by apply list_elem_of_In. }
  assert (Forall good v) as Hgood.
  { rewrite Forall_forall in *. intros a Ha.
    apply list_elem_of_In in Ha. apply filter_In in Ha as [Ha Hacc].
    split; [done|]. by apply Hmod, list_elem_of_In. }
  assert (nonneg_impacts v) as Hvnn.
  { unfold nonneg_impacts in *. rewrite Forall_forall in *. intros a Ha.
    apply Hnn. by eapply elem_of_submseteq, filter_submseteq_list. }
  rewrite (resolve_conflicts_stages _ actions), Hv.
  set (e := _resolve_energy_conflict v context).
  set (out := _resolve_zone_conflict e context).
  assert (Forall good out) as Hout.
  { apply stages_Forall; [|done]. intros a b Hab [Ha Hc].
    apply kept_or_clipped_name in Hab. split.
    - by rewrite (accepted_same_name _ _ _ Hab).
    - by rewrite (rewrite_condition_same_name _ _ _ Hab). }
  assert (validated_actions get_policy_engine out context = out) as Hvo.
  { rewrite validated_actions_default, filter_all.
    - apply rewritten_none. eapply Forall_impl; [exact Hout|]. by intros a [_ ?].
    - eapply Forall_impl; [exact Hout|]. by intros a [? _]. }
  rewrite resolve_conflicts_stages, Hvo.
  assert (_resolve_energy_conflict out context = out) as ->.
  { destruct v as [|a0 v0] eqn:Ev.
    - subst e out. by rewrite !resolve_energy_nil.
    - assert (0 <= available_capacity context) as Hav.
      { apply Forall_cons in Hgood as [[Hacc _] _].
        unfold accepted in Hacc. apply andb_true_iff in Hacc as [_ Hs].
        by apply all_safe_available. }
      apply resolve_energy_fits.
      etransitivity; [|apply (resolve_energy_total (a0 :: v0) context Hav)].
      apply total_impact_submseteq.
      + apply resolve_zone_submseteq.
      + by apply resolve_energy_nonneg. }
  apply resolve_zone_distinct, resolve_zone_NoDup.
Qed.

Lemma C5_idempotent_without_rewrite_witness :
  let c300 := simple_action "ACTIVATE_ALL_COOLING" "CRITICAL" "All hotspot zones" 300 in
  let c250 := simple_action "ACTIVATE_ALL_AIR_PURIFIERS" "CRITICAL" "All zones" 250 in
  let h150 := simple_action "ACTIVATE_PRIORITY_PURIFIERS" "HIGH" "All zones" 150 in
  let context := context_with_load 5200 in
  let out := resolve_conflicts get_policy_engine [c300; c250; h150] context in
  resolve_conflicts get_policy_engine out context = out.
Proof.
  intros c300 c250 h150 context.
  apply (C5_idempotent_without_rewrite [c300; c250; h150] context).
  - repeat constructor.
  - repeat constructor; vm_compute; discriminate.
Defined.

(** * Further properties of the policy engine *)

(** ** The ALLOW effect *)

Lemma policy_loop_without_allow (context : Context) (ps : list Policy)
    (a : Action) (vi : list Violation) (mo : list Modification) :
  policy_loop context
    (List.filter (fun p => match effect p with ALLOW => false | _ => true end) ps)
    a vi mo =
  policy_loop context ps a vi mo.
Proof.
  revert a vi mo. induction ps as [|p ps IH]; intros a vi mo; [done|].
  cbn [List.filter policy_loop].
  destruct (effect p) eqn:He; cbn [policy_loop]; rewrite ?He, ?IH; try done.
  - destruct (modification p); by rewrite ?IH.
  - by destruct (condition p context a).
Qed.

Lemma validate_action_without_allow (self : PolicyEngine) (a : Action)
    (context : Context) :
  validate_action (without_allow self) a context = validate_action self a context.
Proof.
  unfold validate_action. cbn [policies without_allow safety_checks].
  by rewrite policy_loop_without_allow.
Qed.

Lemma validated_actions_without_allow (self : PolicyEngine) (l : list Action)
    (context : Context) :
  validated_actions (without_allow self) l context =
  validated_actions self l context.
Proof.
  induction l as [|a l IH]; cbn [validated_actions]; [done|].
  by rewrite validate_action_without_allow, IH.
Qed.

(** X1. Policies with effect ALLOW are inert: for every engine, removing
    them from the registry changes neither the result of [validate_action]
    on any action and context nor the list [resolve_conflicts] returns. *)
Theorem X1_allow_policies_inert (self : PolicyEngine) (context : Context) :
  (forall a, validate_action (without_allow self) a context =
             validate_action self a context) /\
  (forall l, resolve_conflicts (without_allow self) l context =
             resolve_conflicts self l context).
Proof.
  split.
  - intros a. apply validate_action_without_allow.
  - intros l. unfold resolve_conflicts.
    by rewrite validated_actions_without_allow.
Qed.

(** ** Validity in terms of the context *)

Lemma deferred_iff (context : Context) (a : Action) :
  deferred context a = true <->
  str_in "COOLING" (default "" (action_name a)) = true /\
  5400 < default 0 (energy_load context).
Proof.
  unfold deferred. cbn [condition cooling_during_peak].
  rewrite andb_true_iff, utilization_above. split; intros [? ?]; split; (done || lia).
Qed.

Lemma energy_threshold_iff (context : Context) (a : Action) :
  condition energy_threshold context a = true <->
  action_name a = Some "RAISE_COASTAL_BARRIERS" /\
  default 0 (energy_load context) < 4800.
Proof.
  cbn [condition energy_threshold].
  rewrite andb_true_iff, utilization_below, get_eq_true.
  split; intros [? ?]; split; (done || lia).
Qed.

Lemma conflicting_barriers_iff (context : Context) (a : Action) :
  condition conflicting_barriers context a = true <->
  action_name a = Some "LOWER_COASTAL_BARRIERS" /\ raise_pending context.
Proof.
  cbn [condition conflicting_barriers]. unfold raise_pending.
  rewrite andb_true_iff, get_eq_true, existsb_exists.
  split; intros [Hn (p & Hp & Hr)]; (split; [done|]); exists p.
  - apply list_elem_of_In in Hp. by apply get_eq_true in Hr.
  - apply list_elem_of_In in Hp. by apply get_eq_true in Hr.
Qed.

Lemma all_safe_iff (context : Context) :
  all_safe get_policy_engine context = true <->
  default 0 (energy_load context) < 6000 /\
  default "operational" (system_health context) = "operational" /\
  (8 # 10 < default (95 # 100) (sensor_connectivity context))%Q.
Proof.
  unfold all_safe.
  cbn [safety_checks get_policy_engine _initialize_safety_checks forallb check].
  rewrite andb_true_r, !andb_true_iff, Z.ltb_lt, Qltb_lt, String.eqb_eq. tauto.
Qed.

Lemma accepted_iff (a : Action) (context : Context) :
  accepted context a = true <->
  default 0 (energy_load context) < 6000 /\
  default "operational" (system_health context) = "operational" /\
  (8 # 10 < default (95 # 100) (sensor_connectivity context))%Q /\
  ~ (str_in "COOLING" (default "" (action_name a)) = true /\
     5400 < default 0 (energy_load context)) /\
  ~ (action_name a = Some "RAISE_COASTAL_BARRIERS" /\
     default 0 (energy_load context) < 4800) /\
  ~ (action_name a = Some "LOWER_COASTAL_BARRIERS" /\ raise_pending context).
Proof.
  unfold accepted, blocked.
  rewrite !andb_true_iff, !negb_true_iff, orb_false_iff.
  rewrite <- deferred_iff, <- energy_threshold_iff, <- conflicting_barriers_iff.
  rewrite all_safe_iff, !not_true_iff_false. tauto.
Qed.

(** X2. With the registered policies and checks, [validate_action] returns
    valid = true exactly when the three safety checks pass (load below 6000,
    health operational, connectivity above 0.8), the action is not a cooling
    action above 5400 MW, not RAISE_COASTAL_BARRIERS below 4800 MW, and not
    LOWER_COASTAL_BARRIERS while a raise is pending; the priority of the
    action plays no part. *)
Theorem X2_validity_conditions (a : Action) (context : Context) :
  is_valid (validate_action get_policy_engine a context) = true <->
  default 0 (energy_load context) < 6000 /\
  default "operational" (system_health context) = "operational" /\
  (8 # 10 < default (95 # 100) (sensor_connectivity context))%Q /\
  ~ (str_in "COOLING" (default "" (action_name a)) = true /\
     5400 < default 0 (energy_load context)) /\
  ~ (action_name a = Some "RAISE_COASTAL_BARRIERS" /\
     default 0 (energy_load context) < 4800) /\
  ~ (action_name a = Some "LOWER_COASTAL_BARRIERS" /\ raise_pending context).
Proof. rewrite is_valid_default. apply accepted_iff. Qed.

(** X3. The dict [validate_action] returns with the registered policies: a
    matching cooling_during_peak returns the deferral at once, whatever
    else matches or fails; otherwise the report lists one violation per
    matching BLOCK policy in registration order, one modification when
    aqi_cooling_conflict rewrites the action, the results of the three
    safety checks, and the action (rewritten or not). *)
Theorem X3_validation_report (a : Action) (context : Context) :
  validate_action get_policy_engine a context =
  if deferred context a
  then Deferred "Peak energy load - defer cooling to avoid grid overload"
  else Report (negb (blocked context a) && all_safe get_policy_engine context)
              (expected_violations context a)
              (expected_modifications context a)
              (map (run_safety_check context) _initialize_safety_checks)
              (rewritten context a).
Proof.
  unfold validate_action, deferred, blocked, rewritten,
    expected_violations, expected_modifications.
  rewrite <- (safety_results_passed get_policy_engine context).
  change (safety_checks get_policy_engine) with _initialize_safety_checks.
  generalize (map (run_safety_check context) _initialize_safety_checks).
  intros sr.
  change (policies get_policy_engine) with
    [energy_threshold; cooling_during_peak; conflicting_barriers;
     emergency_override; aqi_cooling_conflict].
  cbn [policy_loop].
  generalize (condition energy_threshold context a) as c1.
  generalize (condition cooling_during_peak context a) as c2.
  generalize (condition conflicting_barriers context a) as c3.
  generalize (condition emergency_override context a) as c4.
  generalize (condition aqi_cooling_conflict context a) as c5.
  intros c5 c4 c3 c2 c1.
  cbn [effect modification policy_id policy_rule policy_reason
       energy_threshold cooling_during_peak
       conflicting_barriers emergency_override aqi_cooling_conflict
       default from_option id].
  destruct c1, c2, c3, c4, c5; cbn [length app Nat.eqb andb orb negb];
    reflexivity.
Qed.

(** ** What resolution returns *)

Lemma accepted_rewritten (context : Context) (a : Action) :
  accepted context a = true -> accepted context (rewritten context a) = true.
Proof.
  unfold rewritten.
  destruct (condition aqi_cooling_conflict context a) eqn:Hc; [|done].
  unfold accepted, blocked. rewrite !andb_true_iff, !negb_true_iff, orb_false_iff.
  intros [[Hd _] Hs].
  assert (str_in "COOLING" (default "" (action_name a)) = true) as Hcool.
  { cbn [condition aqi_cooling_conflict] in Hc.
    by apply andb_true_iff in Hc as [? _]. }
  split; [split|done].
  - apply not_true_iff_false. rewrite deferred_iff. intros [_ Hload].
    apply not_true_iff_false in Hd. apply Hd, deferred_iff. by split.
  - split; apply not_true_iff_false;
      rewrite ?energy_threshold_iff, ?conflicting_barriers_iff;
      by intros [[=] _].
Qed.

Lemma resolve_conflicts_accepted (l : list Action) (context : Context) :
  Forall (fun b => accepted context b = true)
         (resolve_conflicts get_policy_engine l context).
Proof.
  rewrite resolve_conflicts_stages, validated_actions_default.
  apply stages_Forall.
  - intros a b Hab Ha. apply kept_or_clipped_name in Hab.
    by rewrite (accepted_same_name _ _ _ Hab).
  - apply Forall_fmap, Forall_forall. intros a Ha. simpl.
    apply accepted_rewritten.
    apply list_elem_of_In in Ha. by apply filter_In in Ha as [_ ?].
Qed.

(** X4. Every action [resolve_conflicts] returns passes [validate_action]
    itself under the same context: rewriting by aqi_cooling_conflict and
    scope reduction never produce an action the policies would reject. *)
Theorem X4_resolved_actions_valid (l : list Action) (context : Context)
    (b : Action) :
  b ∈ resolve_conflicts get_policy_engine l context ->
  is_valid (validate_action get_policy_engine b context) = true.
Proof.
  intros Hb. rewrite is_valid_default.
  pose proof (resolve_conflicts_accepted l context) as H.
  rewrite Forall_forall in H. by apply H.
Qed.

Lemma X4_resolved_actions_valid_witness :
  let cooling := simple_action "ACTIVATE_ALL_COOLING" "CRITICAL" "All hotspot zones" 300 in
  let smog :=
    {| temperature := None; flood_risk := None; aqi := Some 250;
       energy_load := Some 4500;
       temp_forecast := None; flood_forecast := None;
       temp_anomalies := None; rainfall_anomalies := None;
       system_health := None; sensor_connectivity := None;
       pending_actions := None |} in
  is_valid (validate_action get_policy_engine
              (air_filter_modification cooling) smog) = true.
Proof.
  intros cooling smog.
  apply (X4_resolved_actions_valid [cooling] smog).
  vm_compute. left.
Defined.

(** X5. What the registered policies keep out of the resolved list: no
    action whose name contains COOLING above 5400 MW, no
    RAISE_COASTAL_BARRIERS below 4800 MW, no LOWER_COASTAL_BARRIERS while
    a raise is pending, and nothing at all at 6000 MW or above. *)
Theorem X5_resolution_never_returns (l : list Action) (context : Context)
    (b : Action) :
  b ∈ resolve_conflicts get_policy_engine l context ->
  let load := default 0 (energy_load context) in
  load < 6000 /\
  (str_in "COOLING" (default "" (action_name b)) = true -> load <= 5400) /\
  (action_name b = Some "RAISE_COASTAL_BARRIERS" -> 4800 <= load) /\
  (action_name b = Some "LOWER_COASTAL_BARRIERS" -> ~ raise_pending context).
Proof.
  intros Hb load. subst load.
  pose proof (resolve_conflicts_accepted l context) as H.
  rewrite Forall_forall in H. specialize (H b Hb).
  apply accepted_iff in H. destruct H as (Hl & _ & _ & Hc & Hr & Hlow).
  split; [done|]. split; [|split].
  - intros Hcool. destruct (Z.le_gt_cases (default 0 (energy_load context)) 5400);
      [done|]. exfalso. apply Hc. split; [done|lia].
  - intros Hn. destruct (Z.le_gt_cases 4800 (default 0 (energy_load context)));
      [done|]. exfalso. apply Hr. split; [done|lia].
  - intros Hn Hp. by apply Hlow.
Qed.

Lemma X5_resolution_never_returns_witness :
  let raise := simple_action "RAISE_COASTAL_BARRIERS" "CRITICAL" "Coastal zones" 200 in
  let load := default 0 (energy_load (context_with_load 5000)) in
  load < 6000 /\
  (str_in "COOLING" (default "" (action_name raise)) = true -> load <= 5400) /\
  (action_name raise = Some "RAISE_COASTAL_BARRIERS" -> 4800 <= load) /\
  (action_name raise = Some "LOWER_COASTAL_BARRIERS" ->
   ~ raise_pending (context_with_load 5000)).
Proof.
  intros raise.
  apply (X5_resolution_never_returns [raise] (context_with_load 5000) raise).
  vm_compute. left.
Defined.

(** ** The zone stage in detail *)

Lemma group_of_append (k z : string) (a : Action)
    (g : list (string * list Action)) :
  group_of k (zone_append z a g) =
  group_of k g ++ (if String.eqb z k then [a] else []).
Proof.
  unfold group_of. induction g as [|[k' m] g IH]; cbn [zone_append find fst snd].
  - by destruct (String.eqb z k).
  - destruct (String.eqb_spec k' z) as [->|Hz]; cbn [find fst snd].
    + destruct (String.eqb z k); [done|].
      destruct (find _ g); by rewrite app_nil_r.
    + destruct (String.eqb_spec k' k) as [->|Hk]; [|exact IH].
      destruct (String.eqb_spec z k); [congruence|]. by rewrite app_nil_r.
Qed.

Lemma group_of_fold (k : string) (l : list Action)
    (g : list (string * list Action)) :
  group_of k (zone_fold g l) = group_of k g ++ zone_members k l.
Proof.
  revert g. induction l as [|a l IH]; intros g; cbn [zone_fold fold_left].
  - by rewrite app_nil_r.
  - change (fold_left _ l ?g') with (zone_fold g' l).
    rewrite IH, group_of_append, <- app_assoc. f_equal.
    unfold zone_members. cbn [List.filter].
    by destruct (String.eqb (zone_key a) k).
Qed.

Lemma group_of_member (k : string) (m : list Action)
    (g : list (string * list Action)) :
  NoDup (map fst g) -> (k, m) ∈ g -> group_of k g = m.
Proof.
  unfold group_of. induction g as [|[k' m'] g IH]; intros Hnd Hin;
    [by inversion Hin|].
  cbn [map fst] in Hnd. apply NoDup_cons in Hnd as [Hk' Hnd].
  cbn [find fst snd]. apply elem_of_cons in Hin as [[= <- <-]|Hin].
  - by rewrite String.eqb_refl.
  - destruct (String.eqb_spec k' k) as [->|_]; [|by apply IH].
    exfalso. apply Hk'. apply list_elem_of_fmap. by exists (k, m).
Qed.

(** Every group of the filled dict is the list of the actions of its
    zone, in their order. *)
Lemma group_by_zone_members (l : list Action) (k : string) (m : list Action) :
  (k, m) ∈ group_by_zone l -> m = zone_members k l /\ m <> [].
Proof.
  intros Hin. unfold group_by_zone in *.
  change (fold_left _ l []) with (zone_fold [] l) in *.
  destruct (zone_fold_ok l [] zone_groups_ok_nil) as [Hnd Hall].
  split.
  - rewrite <- (group_of_member k m _ Hnd Hin). by rewrite group_of_fold.
  - rewrite Forall_forall in Hall. by destruct (Hall _ Hin).
Qed.

Section FirstOfRank.
Context {A : Type} (key : A -> Z).

(** The stable sort keeps the order of the elements of one key. *)
Lemma insert_by_filter_key (c : Z) (x : A) (l : list A) :
  List.filter (fun y => key y =? c) (insert_by key x l) =
  (if key x =? c then [x] else []) ++ List.filter (fun y => key y =? c) l.
Proof.
  induction l as [|y l IH]; cbn [insert_by List.filter].
  - by destruct (key x =? c).
  - destruct (Z.leb_spec (key x) (key y)) as [Hle|Hlt]; cbn [List.filter].
    + by destruct (key x =? c).
    + rewrite IH.
      destruct (Z.eqb_spec (key y) c), (Z.eqb_spec (key x) c); try done; lia.
Qed.

Lemma sorted_filter_key (c : Z) (l : list A) :
  List.filter (fun y => key y =? c) (sorted key l) =
  List.filter (fun y => key y =? c) l.
Proof.
  induction l as [|x l IH]; cbn [sorted List.filter]; [done|].
  rewrite insert_by_filter_key, IH. by destruct (key x =? c).
Qed.

Lemma find_filter_head (P : A -> bool) (l : list A) :
  find P l = head (List.filter P l).
Proof.
  induction l as [|x l IH]; cbn [find List.filter]; [done|].
  by destruct (P x).
Qed.

(** The head of the sorted list is a least element, and the first of its
    key in the original order. *)
Lemma sorted_head (l s : list A) (x : A) :
  sorted key l = x :: s ->
  x ∈ l /\ (forall a, a ∈ l -> key x <= key a) /\
  find (fun a => key a =? key x) l = Some x.
Proof.
  intros Hs. pose proof (sorted_perm key l) as Hp. rewrite Hs in Hp.
  split; [|split].
  - rewrite <- Hp. by left.
  - intros a Ha. rewrite <- Hp in Ha.
    apply elem_of_cons in Ha as [->|Ha]; [lia|].
    pose proof (sorted_ascending key l) as Hasc. rewrite Hs in Hasc.
    by apply (ascending_inv key x s).
  - rewrite find_filter_head, <- sorted_filter_key, Hs. cbn [List.filter].
    by rewrite Z.eqb_refl.
Qed.
End FirstOfRank.

Lemma find_filter {A : Type} (P Q : A -> bool) (l : list A) :
  find Q (List.filter P l) = find (fun a => P a && Q a) l.
Proof.
  induction l as [|x l IH]; cbn [find List.filter]; [done|].
  destruct (P x); cbn [find andb]; [|done]. by rewrite IH.
Qed.

Lemma zone_choice_sorted (m : list Action) :
  zone_choice m =
  match sorted priority_key m with
  | x :: _ => [x]
  | [] => []
  end.
Proof. by destruct m as [|a [|b m]]. Qed.

Lemma zone_members_elem (k : string) (l : list Action) (a : Action) :
  a ∈ zone_members k l <-> a ∈ l /\ zone_key a = k.
Proof.
  unfold zone_members. rewrite !list_elem_of_In, filter_In, String.eqb_eq. done.
Qed.

Lemma resolve_zone_elem (l : list Action) (context : Context) (b : Action) :
  b ∈ _resolve_zone_conflict l context <->
  exists k m, (k, m) ∈ group_by_zone l /\ b ∈ zone_choice m.
Proof.
  unfold _resolve_zone_conflict.
  rewrite list_elem_of_In, in_flat_map. split.
  - intros ([k m] & Hin & Hb). exists k, m.
    by rewrite !list_elem_of_In.
  - intros (k & m & Hin & Hb). exists (k, m).
    by rewrite <- !list_elem_of_In.
Qed.

(** X6. The zone stage keeps exactly one action per zone key: the resolved
    actions have pairwise distinct zone keys, every zone key of the input
    is still represented, and the action kept for a zone is an input
    action of that zone of the best priority rank, the first such action
    in the input order. *)
Theorem X6_zone_stage_selection (l : list Action) (context : Context) :
  let out := _resolve_zone_conflict l context in
  NoDup (map zone_key out) /\
  (forall a, a ∈ l -> exists b, b ∈ out /\ zone_key b = zone_key a) /\
  (forall b, b ∈ out ->
     b ∈ l /\
     (forall a, a ∈ l -> zone_key a = zone_key b ->
                priority_key b <= priority_key a) /\
     first_like b l = Some b).
Proof.
  intros out. split; [apply resolve_zone_NoDup|]. split.
  - intros a Ha.
    assert (zone_key a ∈ map zone_key out) as Hk.
    { subst out. unfold _resolve_zone_conflict, group_by_zone.
      change (fold_left _ l []) with (zone_fold [] l).
      pose proof (zone_fold_ok l [] zone_groups_ok_nil) as Hok.
      rewrite zone_resolved_keys by done.
      pose proof (zone_fold_members l []) as Hp. simpl in Hp.
      rewrite <- Hp in Ha. apply list_elem_of_In, in_concat in Ha
        as (m & Hm & Ham).
      apply in_map_iff in Hm as ([k m'] & <- & Hkm).
      destruct Hok as [_ Hall]. rewrite Forall_forall in Hall.
      apply list_elem_of_In in Hkm. destruct (Hall _ Hkm) as [_ Hz].
      rewrite Forall_forall in Hz. apply list_elem_of_In in Ham.
      rewrite (Hz _ Ham). apply list_elem_of_fmap. by exists (k, m'). }
    apply list_elem_of_fmap in Hk as (b & Hb & Hin). by exists b.
  - intros b Hb. apply resolve_zone_elem in Hb as (k & m & Hin & Hb).
    apply group_by_zone_members in Hin as [-> Hne].
    rewrite zone_choice_sorted in Hb.
    destruct (sorted priority_key (zone_members k l)) as [|x s] eqn:Hs;
      [by inversion Hb|].
    apply list_elem_of_singleton in Hb as ->.
    destruct (sorted_head priority_key _ _ _ Hs) as (Hx & Hmin & Hfirst).
    apply zone_members_elem in Hx as [Hx Hk].
    split; [done|]. split.
    + intros a Ha Hz. apply Hmin, zone_members_elem. split; congruence.
    + unfold first_like. rewrite Hk. unfold zone_members in Hfirst.
      by rewrite find_filter in Hfirst.
Qed.

(** ** The stages together *)

(** X7. The action-pair stage returns its input unchanged, for every
    input, every registry of pairs and every order in which the pairs are
    visited; so [resolve_conflicts] is the zone stage applied to the
    capacity stage applied to the validated actions, and its result has
    pairwise distinct zone keys. *)
Theorem X7_pair_stage_identity (self : PolicyEngine) (l : list Action)
    (context : Context) :
  (forall pairs seen, action_loop pairs l l seen = l) /\
  _resolve_action_conflict l context = l /\
  resolve_conflicts self l context =
    _resolve_zone_conflict
      (_resolve_energy_conflict (validated_actions self l context) context)
      context /\
  NoDup (map zone_key (resolve_conflicts self l context)).
Proof.
  split; [|split; [|split]].
  - intros pairs seen. apply action_loop_id.
  - apply resolve_action_conflict_id.
  - apply resolve_conflicts_stages.
  - rewrite resolve_conflicts_stages. apply resolve_zone_NoDup.
Qed.

(** ** The capacity stage in detail *)

Lemma energy_loop_shape (available : Z) (l : list Action) (cum : Z) :
  exists kept,
    kept `sublist_of` l /\ all_fit available kept cum /\
    (energy_loop available l cum = kept \/
     exists a, a ∈ l /\ priority a = Some "CRITICAL" /\
               energy_loop available l cum =
               kept ++ [reduce_scope a (available - (cum + total_impact kept))]).
Proof.
  revert cum. induction l as [|a l IH]; intros cum; cbn [energy_loop].
  - exists []. split; [done|]. split; [done|]. by left.
  - destruct (Z.leb_spec (cum + impact a) available) as [Hfit|Hover].
    + destruct (IH (cum + impact a)) as (kept & Hsub & Hall & Hout).
      exists (a :: kept). split; [by apply sublist_skip|]. split; [done|].
      destruct Hout as [->|(c & Hc & Hp & ->)]; [by left|].
      right. exists c. split; [by right|]. split; [done|].
      change (total_impact (a :: kept)) with (impact a + total_impact kept).
      by rewrite Z.add_assoc.
    + destruct (get_eq (priority a) "CRITICAL") eqn:Hcrit.
      * exists []. split; [apply sublist_nil_l|]. split; [done|].
        right. exists a. split; [by left|]. split; [by apply get_eq_true|].
        change (total_impact []) with 0. by rewrite Z.add_0_r.
      * destruct (IH cum) as (kept & Hsub & Hall & Hout).
        exists kept. split; [by apply sublist_cons|]. split; [done|].
        destruct Hout as [->|(c & Hc & Hp & ->)]; [by left|].
        right. exists c. split; [by right|]. done.
Qed.

(** X8. The shape of what the capacity stage returns: candidates within
    the available capacity come back unchanged; otherwise the result
    consists of actions of the priority-sorted input, unchanged and in that
    order, each accepted within the running total, followed by at most one
    scope-reduced CRITICAL action, which is then the last and takes the
    capacity that is left. *)
Theorem X8_capacity_stage_shape (l : list Action) (context : Context) :
  let available := available_capacity context in
  let out := _resolve_energy_conflict l context in
  (total_impact l <= available -> out = l) /\
  (available < total_impact l ->
   exists kept,
     kept `sublist_of` sorted priority_key l /\ all_fit available kept 0 /\
     (out = kept \/
      exists a, a ∈ l /\ priority a = Some "CRITICAL" /\
                out = kept ++ [reduce_scope a (available - total_impact kept)])).
Proof.
  intros available out. subst available out. split.
  - apply resolve_energy_fits.
  - intros Hgt. unfold _resolve_energy_conflict.
    destruct (Z.leb_spec (total_impact l) (available_capacity context)); [lia|].
    destruct (energy_loop_shape (available_capacity context)
                (sorted priority_key l) 0) as (kept & Hsub & Hall & Hout).
    exists kept. split; [done|]. split; [done|].
    destruct Hout as [->|(c & Hc & Hp & ->)]; [by left|].
    right. exists c. split; [by rewrite <- (sorted_perm priority_key l)|].
    split; [done|]. by rewrite Z.add_0_l.
Qed.

Lemma rewritten_impact (context : Context) (a : Action) :
  impact (rewritten context a) = impact a.
Proof.
  unfold rewritten. by destruct (condition aqi_cooling_conflict context a).
Qed.

(** X9. The capacity invariant of the resolved set: when the load does not
    exceed the capacity and no candidate sheds load, the impacts of the
    actions [resolve_conflicts] returns are non-negative and their sum is
    within the available capacity. *)
Theorem X9_resolved_total_within_capacity (l : list Action) (context : Context) :
  0 <= available_capacity context ->
  nonneg_impacts l ->
  let out := resolve_conflicts get_policy_engine l context in
  nonneg_impacts out /\
  0 <= total_impact out <= available_capacity context.
Proof.
  intros Hav Hl out. subst out.
  rewrite resolve_conflicts_stages, validated_actions_default.
  set (v := map (rewritten context) (List.filter (accepted context) l)).
  assert (nonneg_impacts v) as Hv.
  { unfold nonneg_impacts, v in *. apply Forall_fmap, Forall_forall.
    intros a Ha. simpl. rewrite rewritten_impact.
    rewrite Forall_forall in Hl. apply Hl.
    by eapply elem_of_submseteq, filter_submseteq_list. }
  pose proof (resolve_energy_nonneg v context Hav Hv) as He.
  pose proof (resolve_zone_submseteq (_resolve_energy_conflict v context) context)
    as Hsub.
  assert (nonneg_impacts
            (_resolve_zone_conflict (_resolve_energy_conflict v context) context))
    as Hout.
  { unfold nonneg_impacts in *. rewrite Forall_forall in *. intros b Hb.
    apply He. by eapply elem_of_submseteq. }
  split; [done|]. split; [by apply total_impact_nonneg|].
  etransitivity; [by apply total_impact_submseteq|].
  by apply resolve_energy_total.
Qed.

Lemma X9_resolved_total_within_capacity_witness :
  let c300 := simple_action "ACTIVATE_ALL_COOLING" "CRITICAL" "All hotspot zones" 300 in
  let c250 := simple_action "ACTIVATE_ALL_AIR_PURIFIERS" "CRITICAL" "All zones" 250 in
  let out := resolve_conflicts get_policy_engine [c300; c250]
               (context_with_load 5400) in
  nonneg_impacts out /\ 0 <= total_impact out <= 600.
Proof.
  intros c300 c250.
  apply (X9_resolved_total_within_capacity [c300; c250] (context_with_load 5400)).
  - vm_compute. discriminate.
  - repeat constructor; vm_compute; discriminate.
Defined.

(** ** The resolution without a policy engine *)

Lemma seen_elem (k : string) (seen : list string) :
  existsb (String.eqb k) seen = true <-> k ∈ seen.
Proof.
  rewrite existsb_exists, list_elem_of_In. split.
  - intros (x & Hx & He). apply String.eqb_eq in He. by subst.
  - intros H. exists k. by rewrite String.eqb_refl.
Qed.

Lemma dedup_loop_sublist (s : list Action) (seen : list string) :
  dedup_loop s seen `sublist_of` s.
Proof.
  revert seen. induction s as [|a s IH]; intros seen; cbn [dedup_loop]; [done|].
  destruct (negb _); [by apply sublist_skip|by apply sublist_cons].
Qed.

Lemma dedup_loop_keys (s : list Action) (seen : list string) :
  NoDup (map action_key (dedup_loop s seen)) /\
  forall b, b ∈ dedup_loop s seen -> action_key b ∉ seen.
Proof.
  revert seen. induction s as [|a s IH]; intros seen; cbn [dedup_loop].
  - split; [constructor|]. intros b Hb. inversion Hb.
  - destruct (existsb (String.eqb (action_key a)) seen) eqn:Hseen; cbn [negb].
    + apply IH.
    + destruct (IH (action_key a :: seen)) as [Hnd Hfresh].
      assert (action_key a ∉ seen) as Ha.
      { rewrite <- seen_elem. congruence. }
      split.
      * cbn [map]. apply NoDup_cons. split; [|done].
        intros Hin. apply list_elem_of_fmap in Hin as (b & Hk & Hb).
        apply (Hfresh b Hb). rewrite <- Hk. by left.
      * intros b Hb. apply elem_of_cons in Hb as [->|Hb]; [done|].
        intros Hin. apply (Hfresh b Hb). by right.
Qed.

Lemma dedup_loop_first (s : list Action) (seen : list string) :
  ascending priority_key s ->
  forall a, a ∈ s -> action_key a ∉ seen ->
  exists b, b ∈ dedup_loop s seen /\ action_key b = action_key a /\
            priority_key b <= priority_key a.
Proof.
  revert seen. induction s as [|x s IH]; intros seen Hasc a Ha Hfresh;
    [by inversion Ha|].
  apply ascending_inv in Hasc as [Hx Hasc]. cbn [dedup_loop].
  destruct (existsb (String.eqb (action_key x)) seen) eqn:Hseen; cbn [negb].
  - apply seen_elem in Hseen.
    apply elem_of_cons in Ha as [->|Ha]; [done|]. by apply IH.
  - apply elem_of_cons in Ha as [->|Ha].
    + exists x. split; [by left|]. split; [done|lia].
    + destruct (decide (action_key a = action_key x)) as [He|Hne].
      * exists x. split; [by left|]. split; [done|]. by apply Hx.
      * destruct (IH (action_key x :: seen) Hasc a Ha) as (b & Hb & Hk & Hr).
        { intros Hin. apply elem_of_cons in Hin as [?|?]; done. }
        exists b. split; [by right|]. done.
Qed.

(** X10. Without a policy engine, [_simple_resolve] returns actions of the
    priority-sorted candidates, unchanged and in that order, with pairwise
    distinct name-and-zone keys; every candidate's key is still
    represented, by an action of at least its priority. *)
Theorem X10_simple_resolve_dedup (l : list Action) (context : Context) :
  let out := _simple_resolve l context in
  out `sublist_of` sorted priority_key l /\
  NoDup (map action_key out) /\
  (forall a, a ∈ l ->
     exists b, b ∈ out /\ action_key b = action_key a /\
               priority_key b <= priority_key a).
Proof.
  intros out. subst out. unfold _simple_resolve. split; [|split].
  - apply dedup_loop_sublist.
  - apply dedup_loop_keys.
  - intros a Ha. apply dedup_loop_first.
    + apply sorted_ascending.
    + by rewrite sorted_perm.
    + intros Hin. inversion Hin.
Qed.

(** * Further properties of the coordinator *)

(** ** The result dict *)

Lemma count_priority_disjoint (l : list Action) :
  (count_priority "CRITICAL" l + count_priority "HIGH" l <= length l)%nat.
Proof.
  unfold count_priority. induction l as [|a l IH]; cbn [List.filter length]; [done|].
  destruct (get_eq (priority a) "CRITICAL") eqn:Hc,
           (get_eq (priority a) "HIGH") eqn:Hh; cbn [length]; try lia.
  apply get_eq_true in Hc, Hh. congruence.
Qed.

Lemma filter_length_le {A : Type} (f : A -> bool) (l : list A) :
  (length (List.filter f l) <= length l)%nat.
Proof. apply submseteq_length, filter_submseteq_list. Qed.

(** X11. Whatever the coordinator's agents and the policy engine (or none),
    a result of [orchestrate] reports the agents in declaration order with
    their own names, priorities and statuses; its counters agree with its
    resolved actions: [total_recommendations] is their number, the CRITICAL
    and HIGH counts together do not exceed it, [total_energy_impact_mw] is
    the sum of their impacts; and [conflicts_detected] is not negative. *)
Theorem X11_result_summary (self : CoordinatorBrain) (city_ : string)
    (policy_engine : option PolicyEngine) (w : World) (r : OrchestrationResult) :
  orchestrate self city_ policy_engine w = inr r ->
  city r = city_ /\
  map report_name (agents r) = map agent_name (self_agents self) /\
  map report_priority (agents r) = map agent_priority (self_agents self) /\
  map report_status (agents r) = map agent_status (self_agents self) /\
  total_recommendations (coordination_summary r) = length (resolved_actions r) /\
  (critical_actions (coordination_summary r) +
   high_priority_actions (coordination_summary r) <=
   total_recommendations (coordination_summary r))%nat /\
  (active_agents (coordination_summary r) <= length (agents r))%nat /\
  total_energy_impact_mw r = total_impact (resolved_actions r) /\
  0 <= conflicts_detected r.
Proof.
  unfold orchestrate.
  destruct (analyze_loop _ _) as [e|[analyses all_actions]]; [done|].
  intros [= <-].
  cbn [city agents coordination_summary total_recommendations critical_actions
       high_priority_actions active_agents resolved_actions
       total_energy_impact_mw conflicts_detected].
  rewrite !map_map, length_map. cbn [report_name report_priority report_status].
  repeat split; try done.
  - apply count_priority_disjoint.
  - apply filter_length_le.
  - destruct policy_engine as [pe|].
    + pose proof (resolve_conflicts_length pe all_actions (build_context w)). lia.
    + pose proof (simple_resolve_length all_actions (build_context w)). lia.
Qed.

Lemma X11_result_summary_witness :
  exists r,
    orchestrate (CoordinatorBrain_init sample_numerics) "Mumbai"
                (Some get_policy_engine) (sample_world "2026-01-01T00:00:00")
    = inr r /\
    total_recommendations (coordination_summary r) = length (resolved_actions r) /\
    0 <= conflicts_detected r.
Proof.
  eexists. split; [reflexivity|].
  destruct (X11_result_summary (CoordinatorBrain_init sample_numerics) "Mumbai"
              (Some get_policy_engine) (sample_world "2026-01-01T00:00:00")
              _ eq_refl) as (_ & _ & _ & _ & Ht & _ & _ & _ & Hc).
  split; [exact Ht|exact Hc].
Defined.

(** ** The four agents *)

Lemma HeatAgent_actions_length (num : Numerics) (level : string) (t : Q) :
  (length (HeatAgent_get_actions num level t) <= 1)%nat.
Proof.
  unfold HeatAgent_get_actions.
  repeat match goal with |- context [String.eqb ?x ?y] => destruct (String.eqb x y) end;
    cbn [length]; lia.
Qed.

Lemma FloodAgent_actions_length (level : string) :
  (length (FloodAgent_get_actions level) <= 1)%nat.
Proof.
  unfold FloodAgent_get_actions.
  repeat match goal with |- context [String.eqb ?x ?y] => destruct (String.eqb x y) end;
    cbn [length]; lia.
Qed.

Lemma AQIAgent_actions_length (num : Numerics) (level : string) (q : Z) :
  (length (AQIAgent_get_actions num level q) <= 1)%nat.
Proof.
  unfold AQIAgent_get_actions.
  repeat match goal with |- context [String.eqb ?x ?y] => destruct (String.eqb x y) end;
    cbn [length]; lia.
Qed.

Lemma EnergyAgent_actions_length (num : Numerics) (level : string) (u : Q) :
  (length (EnergyAgent_get_actions num level u) <= 1)%nat.
Proof.
  unfold EnergyAgent_get_actions.
  repeat match goal with |- context [String.eqb ?x ?y] => destruct (String.eqb x y) end;
    cbn [length]; lia.
Qed.

(** X12. With the four built-in agents, whenever
    [get_multi_agent_orchestration] returns a result, with or without a
    policy engine, the agents are reported as Heat, Flood, AQI, Energy,
    each with the analysis that carries its name; there are at most four
    recommendations and between 0 and 4 conflicts. *)
Theorem X12_builtin_agents_result (num : Numerics) (city_ : string)
    (policy_engine : option PolicyEngine) (w : World) (r : OrchestrationResult) :
  get_multi_agent_orchestration num city_ policy_engine w = inr r ->
  map report_name (agents r) =
    ["Heat Agent"; "Flood Agent"; "AQI Agent"; "Energy Agent"] /\
  Forall (fun rep => exists an, report_analysis rep = Some an /\
                                agent an = report_name rep) (agents r) /\
  (total_recommendations (coordination_summary r) <= 4)%nat /\
  0 <= conflicts_detected r <= 4.
Proof.
  unfold get_multi_agent_orchestration, orchestrate, CoordinatorBrain_init.
  cbn [self_agents].
  change (sorted agent_priority
            [HeatAgent num; FloodAgent; AQIAgent num; EnergyAgent num])
    with [HeatAgent num; FloodAgent; AQIAgent num; EnergyAgent num].
  cbn [analyze_loop analyze HeatAgent FloodAgent AQIAgent EnergyAgent
       recommended_actions HeatAgent_analyze FloodAgent_analyze
       AQIAgent_analyze EnergyAgent_analyze default from_option id].
  intros [= <-].
  cbn [agents coordination_summary total_recommendations conflicts_detected
       map report_name agent_name HeatAgent FloodAgent AQIAgent EnergyAgent].
  split; [reflexivity|].
  set (acts := _ ++ _ ++ _ ++ _ ++ []).
  assert (length acts <= 4)%nat as Hacts.
  { subst acts. rewrite !length_app. cbn [length].
    repeat match goal with
           | |- context [length (AQIAgent_get_actions ?n ?l ?q)] =>
             pose proof (AQIAgent_actions_length n l q);
             generalize dependent (length (AQIAgent_get_actions n l q)); intros
           | |- context [length (EnergyAgent_get_actions ?n ?l ?q)] =>
             pose proof (EnergyAgent_actions_length n l q);
             generalize dependent (length (EnergyAgent_get_actions n l q)); intros
           | |- context [length (HeatAgent_get_actions ?n ?l ?q)] =>
             pose proof (HeatAgent_actions_length n l q);
             generalize dependent (length (HeatAgent_get_actions n l q)); intros
           | |- context [length (FloodAgent_get_actions ?l)] =>
             pose proof (FloodAgent_actions_length l);
             generalize dependent (length (FloodAgent_get_actions l)); intros
           end.
    lia. }
  assert (length (match policy_engine with
                  | Some pe => resolve_conflicts pe acts (build_context w)
                  | None => _simple_resolve acts (build_context w)
                  end) <= length acts)%nat as Hres.
  { destruct policy_engine; [apply resolve_conflicts_length|apply simple_resolve_length]. }
  split; [|split; [lia|lia]].
  repeat constructor; eexists; (split; [reflexivity|reflexivity]).
Qed.

(** A hot day at load 4500, with the policy engine. *)
Lemma X12_builtin_agents_result_witness :
  exists r,
    get_multi_agent_orchestration sample_numerics "Mumbai"
      (Some get_policy_engine) (sample_world "2026-01-01T00:00:00") = inr r /\
    map report_name (agents r) =
      ["Heat Agent"; "Flood Agent"; "AQI Agent"; "Energy Agent"] /\
    0 <= conflicts_detected r <= 4.
Proof.
  eexists. split; [reflexivity|].
  destruct (X12_builtin_agents_result sample_numerics "Mumbai"
              (Some get_policy_engine) (sample_world "2026-01-01T00:00:00")
              _ eq_refl) as (Hnames & _ & _ & Hconf).
  split; [exact Hnames|exact Hconf].
Defined.

(** ** Heat risk and the forecast *)

Lemma Qltb_mono (a b x : Q) :
  (a <= b)%Q -> Qltb b x = true -> Qltb a x = true.
Proof.
  rewrite !Qltb_lt. intros Hab Hbx. by eapply Qle_lt_trans.
Qed.

(** X13. For the heat agent a temperature forecast never lowers the risk
    level: the level with the forecast is at least the level the
    temperature alone gives; a forecast maximum of at most 35 changes
    nothing, a maximum above 35 gives at least High and one above 38
    gives Critical, whatever the temperature. *)
Theorem X13_forecast_never_lowers_heat_risk (num : Numerics) (context : Context) :
  let with_fc := risk_level (HeatAgent_analyze num context) in
  let without := risk_level (HeatAgent_analyze num (without_forecast context)) in
  risk_rank without <= risk_rank with_fc /\
  (forall f, temp_forecast context = Some f ->
     ((default (0 # 1) (statistics_maximum f) <= 35 # 1)%Q -> with_fc = without) /\
     ((35 # 1 < default (0 # 1) (statistics_maximum f))%Q -> 2 <= risk_rank with_fc) /\
     ((38 # 1 < default (0 # 1) (statistics_maximum f))%Q -> with_fc = "Critical")).
Proof.
  cbn [risk_level HeatAgent_analyze]. unfold HeatAgent_risk_level.
  cbn [temp_forecast temperature without_forecast].
  set (t := default (30 # 1)%Q (temperature context)).
  rewrite !orb_false_r.
  pose proof (Qltb_mono (35 # 1) (38 # 1) t ltac:(by vm_compute)) as H1.
  pose proof (Qltb_mono (32 # 1) (35 # 1) t ltac:(by vm_compute)) as H2.
  destruct (temp_forecast context) as [f|].
  - set (m := default (0 # 1)%Q (statistics_maximum f)).
    pose proof (Qltb_mono (35 # 1) (38 # 1) m ltac:(by vm_compute)) as H3.
    split.
    + destruct (Qltb (38 # 1) t), (Qltb (35 # 1) t), (Qltb (32 # 1) t),
        (Qltb (38 # 1) m), (Qltb (35 # 1) m); cbn [orb];
        try (by vm_compute); try (by specialize (H1 eq_refl));
        try (by specialize (H2 eq_refl)); try (by specialize (H3 eq_refl)).
    + intros f' [= <-]. fold m. split; [|split].
      * intros Hm. apply Qltb_ge in Hm as H35.
        assert (Qltb (38 # 1) m = false) as H38.
        { destruct (Qltb (38 # 1) m) eqn:E; [|done].
          specialize (H3 eq_refl). congruence. }
        by rewrite H35, H38, !orb_false_r.
      * intros Hm. apply Qltb_lt in Hm. rewrite Hm, orb_true_r.
        destruct (Qltb (38 # 1) t || Qltb (38 # 1) m); by vm_compute.
      * intros Hm. apply Qltb_lt in Hm. by rewrite Hm, orb_true_r.
  - rewrite !orb_false_r. split; [lia|]. intros f [=].
Qed.

(** ** The thresholds of the energy agent *)

Lemma utilization_above_pct (load n : Z) :
  Qltb (n # 100) (utilization_of load) = true <-> 60 * n < load.
Proof.
  unfold Qltb. rewrite negb_true_iff.
  unfold utilization_of, Qle_bool, Qdiv, Qmult, Qinv, inject_Z. simpl.
  rewrite Pos.mul_1_l, Z.leb_gt. lia.
Qed.

(** X15. On integer loads the energy agent's utilisation thresholds are
    loads in MW: Critical above 5700, High above 5100, Medium above 4500,
    Low otherwise (so the default load 4500 is Low); it recommends shedding
    200 MW when Critical, 100 MW when High, and nothing otherwise. *)
Theorem X15_energy_agent_thresholds (num : Numerics) (context : Context) :
  let load := default 4500 (energy_load context) in
  let an := EnergyAgent_analyze num context in
  (risk_level an = "Critical" <-> 5700 < load) /\
  (risk_level an = "High" <-> 5100 < load <= 5700) /\
  (risk_level an = "Medium" <-> 4500 < load <= 5100) /\
  (risk_level an = "Low" <-> load <= 4500) /\
  map energy_impact_mw (agent_actions an) =
    (if 5700 <? load then [Some (-200)]
     else if 5100 <? load then [Some (-100)] else []).
Proof.
  intros load an. subst an. unfold agent_actions.
  cbn [risk_level recommended_actions EnergyAgent_analyze default from_option id].
  fold load.
  pose proof (utilization_above_pct load 95) as H95.
  pose proof (utilization_above_pct load 85) as H85.
  pose proof (utilization_above_pct load 75) as H75.
  destruct (Qltb (95 # 100) (utilization_of load)).
  { assert (5700 < load) as H by (by apply H95).
    destruct (Z.ltb_spec 5700 load); [|lia].
    repeat split; first [done | lia | (intros; lia) | (intros [=]) | reflexivity]. }
  assert (load <= 5700) as Hle95.
  { destruct (Z.le_gt_cases load 5700); [done|].
    assert (false = true) by (apply H95; lia). done. }
  destruct (Z.ltb_spec 5700 load); [lia|].
  destruct (Qltb (85 # 100) (utilization_of load)).
  { assert (5100 < load) as H' by (by apply H85).
    destruct (Z.ltb_spec 5100 load); [|lia].
    repeat split; first [done | lia | (intros; lia) | (intros [=]) | reflexivity]. }
  assert (load <= 5100) as Hle85.
  { destruct (Z.le_gt_cases load 5100); [done|].
    assert (false = true) by (apply H85; lia). done. }
  destruct (Z.ltb_spec 5100 load); [lia|].
  destruct (Qltb (75 # 100) (utilization_of load)).
  { assert (4500 < load) as H' by (by apply H75).
    repeat split; first [done | lia | (intros; lia) | (intros [=]) | reflexivity]. }
  assert (load <= 4500) as Hle75.
  { destruct (Z.le_gt_cases load 4500); [done|].
    assert (false = true) by (apply H75; lia). done. }
  repeat split; first [done | lia | (intros; lia) | (intros [=]) | reflexivity].
Qed.

(** ** The agents' recommendations and the policies *)

Lemma accepted_cooling (a : Action) (context : Context) :
  str_in "COOLING" (default "" (action_name a)) = true ->
  accepted context a = true <->
  all_safe get_policy_engine context = true /\
  default 0 (energy_load context) <= 5400.
Proof.
  intros Hc. rewrite accepted_iff, all_safe_iff. split.
  - intros (Hl & Hh & Hs & Hcool & _). split; [done|].
    destruct (Z.le_gt_cases (default 0 (energy_load context)) 5400); [done|].
    exfalso. apply Hcool. split; [done|lia].
  - intros [(Hl & Hh & Hs) Hload]. repeat split; try done.
    + intros [_ ?]. lia.
    + intros [Hn _]. rewrite Hn in Hc. vm_compute in Hc. discriminate.
    + intros [Hn _]. rewrite Hn in Hc. vm_compute in Hc. discriminate.
Qed.

Lemma accepted_raise (a : Action) (context : Context) :
  action_name a = Some "RAISE_COASTAL_BARRIERS" ->
  accepted context a = true <->
  all_safe get_policy_engine context = true /\
  4800 <= default 0 (energy_load context).
Proof.
  intros Hn. rewrite accepted_iff, all_safe_iff, Hn. split.
  - intros (Hl & Hh & Hs & _ & Hr & _). split; [done|].
    destruct (Z.le_gt_cases 4800 (default 0 (energy_load context))); [done|].
    exfalso. apply Hr. split; [done|lia].
  - intros [(Hl & Hh & Hs) Hload]. repeat split; try done.
    + intros [Hc _]. vm_compute in Hc. discriminate.
    + intros [_ ?]. lia.
    + intros [[=] _].
Qed.

Lemma accepted_plain (a : Action) (context : Context) :
  str_in "COOLING" (default "" (action_name a)) = false ->
  action_name a <> Some "RAISE_COASTAL_BARRIERS" ->
  action_name a <> Some "LOWER_COASTAL_BARRIERS" ->
  accepted context a = true <-> all_safe get_policy_engine context = true.
Proof.
  intros Hc Hr Hl. rewrite accepted_iff, all_safe_iff. split.
  - intros (? & ? & ? & _). done.
  - intros (? & ? & ?). repeat split; try done.
    + intros [? _]. congruence.
    + by intros [? _].
    + by intros [? _].
Qed.

Ltac emitted_action H :=
  unfold agent_actions in H;
  cbn [recommended_actions HeatAgent_analyze FloodAgent_analyze AQIAgent_analyze
       EnergyAgent_analyze default from_option id] in H;
  unfold HeatAgent_get_actions, FloodAgent_get_actions, AQIAgent_get_actions,
    EnergyAgent_get_actions in H;
  repeat match type of H with
         | context [String.eqb ?x ?y] => destruct (String.eqb x y)
         end;
  try (by inversion H);
  apply list_elem_of_singleton in H; subst.

(** X14. What the registered policies do to the recommendations of the
    built-in agents, given that the safety checks pass: a heat agent
    action is valid exactly up to 5400 MW, the flood agent's
    RAISE_COASTAL_BARRIERS exactly from 4800 MW (its PREPARE_BARRIERS
    always), and the actions of the AQI and energy agents always. *)
Theorem X14_agent_actions_and_policies (num : Numerics)
    (context context' : Context) (a : Action) :
  let valid := is_valid (validate_action get_policy_engine a context') in
  let safe := all_safe get_policy_engine context' in
  let load := default 0 (energy_load context') in
  (a ∈ agent_actions (HeatAgent_analyze num context) ->
   (valid = true <-> safe = true /\ load <= 5400)) /\
  (a ∈ agent_actions (FloodAgent_analyze context) ->
   (valid = true <->
    safe = true /\ (action_name a = Some "RAISE_COASTAL_BARRIERS" -> 4800 <= load))) /\
  (a ∈ agent_actions (AQIAgent_analyze num context) \/
   a ∈ agent_actions (EnergyAgent_analyze num context) ->
   (valid = true <-> safe = true)).
Proof.
  intros valid safe load. subst valid safe load. rewrite is_valid_default.
  split; [|split].
  - intros H. emitted_action H; by apply accepted_cooling.
  - intros H. emitted_action H.
    + rewrite accepted_raise by done. split; [intros [? ?]|intros [? H]]; split;
        try done. by apply H.
    + rewrite accepted_plain by done. split; [|by intros [? _]].
      intros ?. split; [done|]. intros [=].
  - intros [H|H]; emitted_action H; by apply accepted_plain.
Qed.

(** X16. The AQI agent and the aqi_cooling_conflict policy share their
    threshold: for an action whose name contains COOLING the policy
    matches exactly when the AQI agent reports Critical, that is when the
    context holds an AQI above 200 (the different defaults for a missing
    AQI, 80 and 0, both stay below). *)
Theorem X16_aqi_critical_rewrites_cooling (num : Numerics) (context : Context)
    (a : Action) :
  str_in "COOLING" (default "" (action_name a)) = true ->
  (risk_level (AQIAgent_analyze num context) = "Critical" <->
   condition aqi_cooling_conflict context a = true) /\
  (condition aqi_cooling_conflict context a = true <->
   exists q, aqi context = Some q /\ 200 < q).
Proof.
  intros Hc. cbn [risk_level AQIAgent_analyze condition aqi_cooling_conflict].
  rewrite Hc. cbn [andb].
  destruct (aqi context) as [q|]; cbn [default from_option id].
  - destruct (Z.ltb_spec 200 q).
    + split; [done|]. split; [|done]. intros _. by exists q.
    + split.
      * repeat match goal with |- context [?x <? ?y] => destruct (x <? y) end;
          split; intros [=].
      * split; [intros [=]|]. intros (q' & [= <-] & ?). lia.
  - split; [split; intros [=]|]. split; [intros [=]|]. by intros (q & [=] & _).
Qed.

Lemma X16_aqi_critical_rewrites_cooling_witness :
  let cooling := simple_action "ACTIVATE_ALL_COOLING" "CRITICAL" "All hotspot zones" 300 in
  let nominal := context_with_load 4500 in
  (risk_level (AQIAgent_analyze sample_numerics nominal) = "Critical" <->
   condition aqi_cooling_conflict nominal cooling = true) /\
  (condition aqi_cooling_conflict nominal cooling = true <->
   exists q, aqi nominal = Some q /\ 200 < q).
Proof.
  intros cooling nominal.
  apply (X16_aqi_critical_rewrites_cooling sample_numerics nominal cooling).
  reflexivity.
Defined.

(** X18. A context without the [energy_load] key: the policies and the
    energy safety check read the load as 0 while the capacity stage and the
    energy agent read it as 4500; so the energy check passes, no cooling
    action is deferred, every RAISE_COASTAL_BARRIERS is invalid, the
    capacity stage allows 1500 MW and the energy agent reports Low. *)
Theorem X18_missing_energy_load (num : Numerics) (context : Context) :
  energy_load context = None ->
  available_capacity context = 1500 /\
  risk_level (EnergyAgent_analyze num context) = "Low" /\
  (forall a, deferred context a = false) /\
  (forall a, action_name a = Some "RAISE_COASTAL_BARRIERS" ->
             is_valid (validate_action get_policy_engine a context) = false) /\
  (forall a, action_name a <> Some "RAISE_COASTAL_BARRIERS" ->
             action_name a <> Some "LOWER_COASTAL_BARRIERS" ->
             is_valid (validate_action get_policy_engine a context) =
             all_safe get_policy_engine context).
Proof.
  intros Hn. split; [|split; [|split; [|split]]].
  - unfold available_capacity. by rewrite Hn.
  - cbn [risk_level EnergyAgent_analyze]. by rewrite Hn.
  - intros a. apply not_true_iff_false. rewrite deferred_iff, Hn.
    cbn [default from_option id]. intros [_ ?]. lia.
  - intros a Ha. rewrite is_valid_default. apply not_true_iff_false.
    rewrite accepted_raise by done. rewrite Hn. cbn [default from_option id].
    intros [_ ?]. lia.
  - intros a Hr Hl. rewrite is_valid_default. unfold accepted, blocked.
    assert (deferred context a = false) as ->.
    { apply not_true_iff_false. rewrite deferred_iff, Hn.
      cbn [default from_option id]. intros [_ ?]. lia. }
    assert (condition energy_threshold context a = false) as ->.
    { apply not_true_iff_false. rewrite energy_threshold_iff. by intros [? _]. }
    assert (condition conflicting_barriers context a = false) as ->.
    { apply not_true_iff_false. rewrite conflicting_barriers_iff. by intros [? _]. }
    done.
Qed.

Lemma X18_missing_energy_load_witness :
  available_capacity (context_with_temperature (39 # 1)) = 1500 /\
  risk_level (EnergyAgent_analyze sample_numerics
                (context_with_temperature (39 # 1))) = "Low".
Proof.
  destruct (X18_missing_energy_load sample_numerics
              (context_with_temperature (39 # 1)) eq_refl) as (H1 & H2 & _).
  split; [exact H1|exact H2].
Defined.

(** X19. The flood agent: the risk level is High exactly when the context's
    flood risk or the forecast's overall risk is High, and is the context's
    flood risk (Low when missing) otherwise; it recommends
    RAISE_COASTAL_BARRIERS exactly when the level is High, PREPARE_BARRIERS
    exactly when it is Medium, and nothing for any other level. *)
Theorem X19_flood_agent_levels (context : Context) :
  let an := FloodAgent_analyze context in
  let overall :=
    match flood_forecast context with
    | Some f => risk_assessment_overall_risk f
    | None => None
    end in
  (risk_level an = "High" <->
   flood_risk context = Some "High" \/ overall = Some "High") /\
  (overall <> Some "High" -> risk_level an = default "Low" (flood_risk context)) /\
  (risk_level an = "High" <->
   map action_name (agent_actions an) = [Some "RAISE_COASTAL_BARRIERS"]) /\
  (risk_level an = "Medium" <->
   map action_name (agent_actions an) = [Some "PREPARE_BARRIERS"]) /\
  (risk_level an <> "High" -> risk_level an <> "Medium" -> agent_actions an = []).
Proof.
  intros an overall. subst an. unfold agent_actions.
  cbn [risk_level recommended_actions FloodAgent_analyze default from_option id].
  fold overall.
  destruct (get_eq overall "High") eqn:Ho.
  - apply get_eq_true in Ho. unfold FloodAgent_get_actions.
    rewrite String.eqb_refl. repeat split; try done; try (by intros [=]); auto.
  - apply get_eq_false in Ho. unfold FloodAgent_get_actions.
    set (level := default "Low" (flood_risk context)).
    assert (level = "High" <-> flood_risk context = Some "High") as Hlevel.
    { subst level. destruct (flood_risk context) as [s|]; cbn [default from_option id];
        split; intros H; try congruence; discriminate. }
    destruct (String.eqb_spec level "High") as [Hh|Hh].
    + repeat split; try done; try (by intros [=]); try tauto.
      intros Hm. rewrite Hh in Hm. discriminate Hm.
    + destruct (String.eqb_spec level "Medium") as [Hm|Hm];
        repeat split; try done; try (by intros [=]); tauto.
Qed.

(** * The simulation state *)

Lemma trigger_response_ok (st : SimulationState) (system action_ target now : string) :
  interventions_ok st ->
  interventions_ok (fst (trigger_response st system action_ target now)).
Proof.
  intros [Hnd Hlen]. unfold interventions_ok, trigger_response.
  cbn [fst active_interventions].
  destruct (existsb _ (active_interventions st)) eqn:Hseen; cbn [negb]; [done|].
  split.
  - eapply sublist_NoDup; [|apply sublist_take].
    apply NoDup_cons. split; [|done]. rewrite <- seen_elem. congruence.
  - rewrite length_take. lia.
Qed.

Lemma trigger_response_listed (st : SimulationState)
    (system action_ target now : string) :
  (system +:+ ": " +:+ action_) ∈
  active_interventions (fst (trigger_response st system action_ target now)).
Proof.
  unfold trigger_response. cbn [fst active_interventions].
  destruct (existsb _ (active_interventions st)) eqn:Hseen; cbn [negb].
  - by apply seen_elem.
  - cbn [take]. by left.
Qed.

Lemma after_calls_snoc (st : SimulationState) (cs : list TriggerCall)
    (c : TriggerCall) :
  after_calls st (cs ++ [c]) =
  fst (trigger_response (after_calls st cs) (call_system c) (call_action c)
                        (call_target c) (call_now c)).
Proof. unfold after_calls. by rewrite fold_left_app. Qed.

Lemma load_impact_of_range (system : string) :
  0 <= load_impact_of system <= 300.
Proof.
  unfold load_impact_of.
  repeat match goal with |- context [String.eqb ?x ?y] => destruct (String.eqb x y) end;
    lia.
Qed.

Lemma after_calls_state (st : SimulationState) (calls : list TriggerCall) :
  interventions_ok st ->
  interventions_ok (after_calls st calls) /\
  extra_load (after_calls st calls) = extra_load st + total_load_impact calls.
Proof.
  revert st. induction calls as [|c calls IH]; intros st Hok.
  - split; [done|]. cbn. lia.
  - cbn [after_calls fold_left].
    change (fold_left _ calls ?s) with (after_calls s calls).
    destruct (IH _ (trigger_response_ok st (call_system c) (call_action c)
                      (call_target c) (call_now c) Hok)) as [Hok' Hload].
    split; [done|]. rewrite Hload.
    cbn [trigger_response fst extra_load total_load_impact fold_right].
    fold (total_load_impact calls). lia.
Qed.

(** X17. The state [trigger_response] keeps: after any sequence of calls
    from the initial state the list of active interventions has no
    duplicates and at most three entries, and still lists the description
    of the latest call; the extra load is the sum of the load impacts of
    all calls, repeated ones included (150 for Cooling, 300 for Flood, 200
    for Air, 0 for any other system), so it never decreases. *)
Theorem X17_trigger_response_state (calls : list TriggerCall) :
  let st := after_calls SIMULATION_STATE calls in
  NoDup (active_interventions st) /\
  (length (active_interventions st) <= 3)%nat /\
  extra_load st = total_load_impact calls /\
  0 <= extra_load st <= 300 * Z.of_nat (length calls) /\
  (forall cs c, calls = cs ++ [c] -> call_desc c ∈ active_interventions st).
Proof.
  intros st. subst st.
  assert (interventions_ok SIMULATION_STATE) as Hinit.
  { split; [constructor|]. cbn. lia. }
  destruct (after_calls_state SIMULATION_STATE calls Hinit) as [[Hnd Hlen] Hload].
  split; [done|]. split; [done|]. split; [by rewrite Hload|]. split.
  - rewrite Hload. cbn [extra_load SIMULATION_STATE]. clear.
    induction calls as [|c calls IH]; [cbn; lia|].
    cbn [total_load_impact fold_right length]. fold (total_load_impact calls).
    pose proof (load_impact_of_range (call_system c)). lia.
  - intros cs c ->. rewrite after_calls_snoc. apply trigger_response_listed.
Qed.

(** * Failure of an agent, in priority order *)

Lemma analyze_loop_first_failure (pre post : list Agent) (a : Agent)
    (context : Context) (e : Exn) :
  Forall (fun b => exists an, analyze b context = inr an) pre ->
  analyze a context = inl e ->
  analyze_loop (pre ++ a :: post) context = inl e.
Proof.
  intros Hpre Ha. induction Hpre as [|b pre [an Hb] _ IH]; cbn [app analyze_loop].
  - by rewrite Ha.
  - by rewrite Hb, IH.
Qed.

(** X20. The exception [orchestrate] ends with is the one of the first
    agent, in priority order (declaration order among equal priorities),
    whose [analyze] raises: the agents before it are analysed, those after
    it are not consulted. *)
Theorem X20_first_failure_decides (self : CoordinatorBrain) (city_ : string)
    (policy_engine : option PolicyEngine) (w : World)
    (pre post : list Agent) (a : Agent) (e : Exn) :
  sorted agent_priority (self_agents self) = pre ++ a :: post ->
  Forall (fun b => exists an, analyze b (build_context w) = inr an) pre ->
  analyze a (build_context w) = inl e ->
  orchestrate self city_ policy_engine w = inl e.
Proof.
  intros Hs Hpre Ha. unfold orchestrate.
  by rewrite Hs, (analyze_loop_first_failure pre post a _ e Hpre Ha).
Qed.

Lemma X20_first_failure_decides_witness :
  orchestrate {| self_agents := [base_Agent "Late Agent" 9;
                                 HeatAgent sample_numerics;
                                 base_Agent "Custom Agent" 5] |}
              "Mumbai" None (sample_world "2026-01-01T00:00:00")
  = inl NotImplementedError.
Proof.
  apply (X20_first_failure_decides _ _ _ _
           [HeatAgent sample_numerics] [base_Agent "Late Agent" 9]
           (base_Agent "Custom Agent" 5) NotImplementedError).
  - reflexivity.
  - constructor; [|constructor]. by eexists.
  - reflexivity.
Defined.
